(** * mrregister: linear transforms and stage orchestration

    A shallow embedding of
      - [lib/registration/transform/base.h]  (class [Registration::Transform::Base])
      - [cmd/mrregister.cpp]                 ([run] and [load_image])
      - [testing/cmd/testing_diff_tsf.cpp]   (the [run] function)

    Scalars.  [default_type] is [double] in the sources.  It is idealised
    here as an exact rational ([Q]): rounding, infinities and NaN are not
    modelled.  Values that the code only copies are compared with Leibniz
    equality; values it computes are compared with [==] on [Q].

    Assertions.  [assert (e)] is modelled with its checking semantics
    ([NDEBUG] undefined): a false [e] stops the call with
    [AssertionFailed]. *)

From Stdlib Require Import QArith Qabs Qfield ZArith List String Bool Lia Lqa
  DecimalString Permutation.
Import ListNotations.

Open Scope Q_scope.

(* ================================================================== *)
(** ** The parts of Eigen that [base.h] uses *)
(* ================================================================== *)

Module Eigen.

(** [Eigen::Vector3] *)
Record Vector3 : Type := mkVector3 { vx : Q; vy : Q; vz : Q }.

(** [Eigen::Matrix<ParameterType, 3, 3>], by rows. *)
Record Matrix3 : Type := mkMatrix3 { r0 : Vector3; r1 : Vector3; r2 : Vector3 }.

Record Vector4 : Type := mkVector4 { wx : Q; wy : Q; wz : Q; ww : Q }.

(** [Eigen::Matrix<ParameterType, 4, 4>], by rows. *)
Record Matrix4 : Type :=
  mkMatrix4 { h0 : Vector4; h1 : Vector4; h2 : Vector4; h3 : Vector4 }.

(** [Eigen::Transform<ParameterType, 3, Eigen::AffineCompact>]: the 3x4
    matrix [linear | translation]. *)
Record Transform : Type := mkTransform { linear : Matrix3; translation : Vector3 }.

Definition Vector3_Zero : Vector3 := mkVector3 0 0 0.

Definition Matrix3_Identity : Matrix3 :=
  mkMatrix3 (mkVector3 1 0 0) (mkVector3 0 1 0) (mkVector3 0 0 1).

Definition Matrix4_Identity : Matrix4 :=
  mkMatrix4 (mkVector4 1 0 0 0) (mkVector4 0 1 0 0)
            (mkVector4 0 0 1 0) (mkVector4 0 0 0 1).

(** What [matrix().setIdentity()] leaves in a 3x4 matrix. *)
Definition Transform_Identity : Transform :=
  mkTransform Matrix3_Identity Vector3_Zero.

Definition add (a b : Vector3) : Vector3 :=
  mkVector3 (vx a + vx b) (vy a + vy b) (vz a + vz b).

Definition sub (a b : Vector3) : Vector3 :=
  mkVector3 (vx a - vx b) (vy a - vy b) (vz a - vz b).

Definition neg (a : Vector3) : Vector3 :=
  mkVector3 (- vx a) (- vy a) (- vz a).

Definition dot (a b : Vector3) : Q := vx a * vx b + vy a * vy b + vz a * vz b.

(** matrix * vector *)
Definition mulv (m : Matrix3) (v : Vector3) : Vector3 :=
  mkVector3 (dot (r0 m) v) (dot (r1 m) v) (dot (r2 m) v).

Definition col0 (m : Matrix3) : Vector3 := mkVector3 (vx (r0 m)) (vx (r1 m)) (vx (r2 m)).
Definition col1 (m : Matrix3) : Vector3 := mkVector3 (vy (r0 m)) (vy (r1 m)) (vy (r2 m)).
Definition col2 (m : Matrix3) : Vector3 := mkVector3 (vz (r0 m)) (vz (r1 m)) (vz (r2 m)).

(** matrix * matrix *)
Definition mulm (a b : Matrix3) : Matrix3 :=
  let row r := mkVector3 (dot r (col0 b)) (dot r (col1 b)) (dot r (col2 b)) in
  mkMatrix3 (row (r0 a)) (row (r1 a)) (row (r2 a)).

(** [Transform * Transform] in affine mode. *)
Definition compose (a b : Transform) : Transform :=
  mkTransform (mulm (linear a) (linear b))
              (add (mulv (linear a) (translation b)) (translation a)).

(** [Transform * point]. *)
Definition apply (t : Transform) (p : Vector3) : Vector3 :=
  add (mulv (linear t) p) (translation t).

(** [tmp.setIdentity(); tmp.block<3,4>(0,0) = t.matrix()]. *)
Definition homogeneous (t : Transform) : Matrix4 :=
  let row r k := mkVector4 (vx r) (vy r) (vz r) k in
  mkMatrix4 (row (r0 (linear t)) (vx (translation t)))
            (row (r1 (linear t)) (vy (translation t)))
            (row (r2 (linear t)) (vz (translation t)))
            (h3 Matrix4_Identity).

(** [m.block<3,3>(0,0)] *)
Definition block33 (m : Matrix4) : Matrix3 :=
  let row r := mkVector3 (wx r) (wy r) (wz r) in
  mkMatrix3 (row (h0 m)) (row (h1 m)) (row (h2 m)).

(** [m.block<3,4>(0,0)], read as the matrix of a compact transform. *)
Definition block34 (m : Matrix4) : Transform :=
  mkTransform (block33 m) (mkVector3 (ww (h0 m)) (ww (h1 m)) (ww (h2 m))).

Definition row4 (m : Matrix4) (i : nat) : Vector4 :=
  match i with O => h0 m | 1%nat => h1 m | 2%nat => h2 m | _ => h3 m end.

Definition coeff (m : Matrix4) (i j : nat) : Q :=
  let r := row4 m i in
  match j with O => wx r | 1%nat => wy r | 2%nat => wz r | _ => ww r end.

(** The fixed-size 4x4 determinant: six products of complementary 2x2
    minors. *)
Definition bruteforce_det4_helper (m : Matrix4) (j k p n : nat) : Q :=
  (coeff m j 0 * coeff m k 1 - coeff m k 0 * coeff m j 1)
  * (coeff m p 2 * coeff m n 3 - coeff m n 2 * coeff m p 3).

Definition determinant (m : Matrix4) : Q :=
  bruteforce_det4_helper m 0 1 2 3
  - bruteforce_det4_helper m 0 2 1 3
  + bruteforce_det4_helper m 0 3 1 2
  + bruteforce_det4_helper m 1 2 0 3
  - bruteforce_det4_helper m 1 3 0 2
  + bruteforce_det4_helper m 2 3 0 1.

(** Cofactors of a 3x3 matrix and its determinant along column 0. *)
Definition cofactor (m : Matrix3) (i j : nat) : Q :=
  let c (a b : nat) : Q :=
    let r := match a with O => r0 m | 1%nat => r1 m | _ => r2 m end in
    match b with O => vx r | 1%nat => vy r | _ => vz r end in
  let i1 := ((i + 1) mod 3)%nat in let i2 := ((i + 2) mod 3)%nat in
  let j1 := ((j + 1) mod 3)%nat in let j2 := ((j + 2) mod 3)%nat in
  c i1 j1 * c i2 j2 - c i1 j2 * c i2 j1.

Definition determinant3 (m : Matrix3) : Q :=
  cofactor m 0 0 * vx (r0 m) + cofactor m 1 0 * vx (r1 m) + cofactor m 2 0 * vx (r2 m).

(** [Matrix3::inverse()]: transposed cofactors times [1 / det].
    ([/ 0] is [0] on [Q]; Eigen yields infinities there.) *)
Definition inverse3 (m : Matrix3) : Matrix3 :=
  let invdet := / determinant3 m in
  mkMatrix3
    (mkVector3 (cofactor m 0 0 * invdet) (cofactor m 1 0 * invdet) (cofactor m 2 0 * invdet))
    (mkVector3 (cofactor m 0 1 * invdet) (cofactor m 1 1 * invdet) (cofactor m 2 1 * invdet))
    (mkVector3 (cofactor m 0 2 * invdet) (cofactor m 1 2 * invdet) (cofactor m 2 2 * invdet)).

(** [Transform::inverse()] in affine mode: the linear part is inverted,
    the translation becomes [- linear^-1 * translation]. *)
Definition inverse (t : Transform) : Transform :=
  let l := inverse3 (linear t) in
  mkTransform l (neg (mulv l (translation t))).

(** [cwiseAbs2().sum()] *)
Definition squaredNorm3 (v : Vector3) : Q := dot v v.

Definition squaredNorm33 (m : Matrix3) : Q :=
  squaredNorm3 (r0 m) + squaredNorm3 (r1 m) + squaredNorm3 (r2 m).

Definition squaredNorm34 (t : Transform) : Q :=
  squaredNorm33 (linear t) + squaredNorm3 (translation t).

Definition sub33 (a b : Matrix3) : Matrix3 :=
  mkMatrix3 (sub (r0 a) (r0 b)) (sub (r1 a) (r1 b)) (sub (r2 a) (r2 b)).

Definition sub34 (a b : Transform) : Transform :=
  mkTransform (sub33 (linear a) (linear b)) (sub (translation a) (translation b)).

(** [NumTraits<double>::dummy_precision()] *)
Definition dummy_precision : Q := 1 # 1000000000000.

Definition mini (x y : Q) : Q := if Qle_bool x y then x else y.

(** [a.isApprox(b)]:
    [(a - b).cwiseAbs2().sum() <= prec * prec * min (a.cwiseAbs2().sum(), b.cwiseAbs2().sum())] *)
Definition isApprox33 (a b : Matrix3) : bool :=
  Qle_bool (squaredNorm33 (sub33 a b))
           (dummy_precision * dummy_precision * mini (squaredNorm33 a) (squaredNorm33 b)).

Definition isApprox34 (a b : Transform) : bool :=
  Qle_bool (squaredNorm34 (sub34 a b))
           (dummy_precision * dummy_precision * mini (squaredNorm34 a) (squaredNorm34 b)).

(** Component-wise [==]. *)
Definition Vector3_eq (a b : Vector3) : Prop :=
  vx a == vx b /\ vy a == vy b /\ vz a == vz b.

Definition Matrix3_eq (a b : Matrix3) : Prop :=
  Vector3_eq (r0 a) (r0 b) /\ Vector3_eq (r1 a) (r1 b) /\ Vector3_eq (r2 a) (r2 b).

Definition Transform_eq (a b : Transform) : Prop :=
  Matrix3_eq (linear a) (linear b) /\ Vector3_eq (translation a) (translation b).

End Eigen.

Import Eigen.

(* ================================================================== *)
(** ** [Registration::Transform::Base] *)
(* ================================================================== *)

(** The outcome of a member function that contains [assert]s. *)
Inductive result (A : Type) : Type :=
  | Done (a : A)
  | AssertionFailed (expr : string).

Arguments Done {A} a.
Arguments AssertionFailed {A} expr.

Definition and_then {A B : Type} (r : result A) (k : A -> result B) : result B :=
  match r with
  | Done a => k a
  | AssertionFailed e => AssertionFailed e
  end.

Definition assert (cond : bool) (expr : string) : result unit :=
  if cond then Done tt else AssertionFailed expr.

Notation "'check' c 'as' e ;; k" := (and_then (assert c e) (fun _ => k))
  (at level 20, c at level 100, e at level 0, k at level 200, only parsing).

(** The members of [Base] that the member functions read or write.  The
    three members kept "only for the rigid class" ([matrix], [translation],
    [offset]) are never touched in [base.h] and are left out.
    [optimiser_weights] is sized by the constructor and not initialised:
    an entry is [None] until it is assigned. *)
Record Base : Type := mkBase {
  number_of_parameters : nat;
  trafo : Transform;
  trafo_half : Transform;
  trafo_half_inverse : Transform;
  centre : Vector3;
  optimiser_weights : list (option Q)
}.

(** [Base::Base (size_t number_of_parameters)] *)
Definition Base_new (n : nat) : Base :=
  mkBase n Transform_Identity Transform_Identity Transform_Identity
         Vector3_Zero (repeat None n).

Definition with_trafo (s : Base) (t : Transform) : Base :=
  mkBase (number_of_parameters s) t (trafo_half s) (trafo_half_inverse s)
         (centre s) (optimiser_weights s).

Definition with_centre (s : Base) (c : Vector3) : Base :=
  mkBase (number_of_parameters s) (trafo s) (trafo_half s) (trafo_half_inverse s)
         c (optimiser_weights s).

Definition with_halves (s : Base) (h hi : Transform) : Base :=
  mkBase (number_of_parameters s) (trafo s) h hi (centre s) (optimiser_weights s).

Definition transform (s : Base) (p : Vector3) : Vector3 := apply (trafo s) p.
Definition transform_half (s : Base) (p : Vector3) : Vector3 := apply (trafo_half s) p.
Definition transform_half_inverse (s : Base) (p : Vector3) : Vector3 :=
  apply (trafo_half_inverse s) p.

Definition get_transform (s : Base) : Transform := trafo s.
Definition get_transform_half (s : Base) : Transform := trafo_half s.
Definition get_transform_half_inverse (s : Base) : Transform := trafo_half_inverse s.
Definition get_matrix (s : Base) : Matrix3 := linear (trafo s).
Definition get_translation (s : Base) : Vector3 := translation (trafo s).
Definition get_centre (s : Base) : Vector3 := centre s.
Definition size (s : Base) : nat := number_of_parameters s.

(** [compute_offset]:
    [offset = trafo.translation() + centre - trafo.linear() * centre;
     trafo.translation() = offset;] *)
Definition compute_offset (s : Base) : Base :=
  let offset := sub (add (translation (trafo s)) (centre s))
                    (mulv (linear (trafo s)) (centre s)) in
  with_trafo s (mkTransform (linear (trafo s)) offset).

Section HalfSpace.

(** [MatrixBase::sqrt()] of Eigen's unsupported MatrixFunctions module:
    the principal matrix square root.  It is an iterative floating-point
    routine outside this repository, so every statement below is made for
    an arbitrary routine. *)
Variable sqrt : Matrix4 -> Matrix4.

Definition compute_halfspace_transformations (s : Base) : result Base :=
  let tmp := homogeneous (trafo s) in
  check isApprox33 (block33 tmp) (linear (trafo s))
    as "tmp.template block<3,3>(0,0).isApprox(trafo.linear())" ;;
  check negb (Qle_bool (determinant tmp) 0)
    as "tmp.determinant() > 0" ;;
  let tmp := sqrt tmp in
  let s := with_halves s (block34 tmp) (inverse (block34 tmp)) in
  check isApprox34 (trafo s) (compose (trafo_half s) (trafo_half s))
    as "trafo.matrix().isApprox((trafo_half*trafo_half).matrix())" ;;
  check isApprox34 (inverse (trafo s))
                   (compose (trafo_half_inverse s) (trafo_half_inverse s))
    as "trafo.inverse().matrix().isApprox((trafo_half_inverse*trafo_half_inverse).matrix())" ;;
  Done s.

Definition set_transform (t : Transform) (s : Base) : result Base :=
  compute_halfspace_transformations (with_trafo s t).

Definition set_matrix (mat : Matrix3) (s : Base) : result Base :=
  let s := with_trafo s (mkTransform mat (translation (trafo s))) in
  let s := compute_offset s in
  compute_halfspace_transformations s.

Definition set_translation (trans : Vector3) (s : Base) : result Base :=
  let s := with_trafo s (mkTransform (linear (trafo s)) trans) in
  let s := compute_offset s in
  compute_halfspace_transformations s.

Definition set_centre (centre_in : Vector3) (s : Base) : result Base :=
  let s := with_centre s centre_in in
  let s := compute_offset s in
  compute_halfspace_transformations s.

Definition set_offset (offset_in : Vector3) (s : Base) : result Base :=
  let s := with_trafo s (mkTransform (linear (trafo s)) offset_in) in
  compute_halfspace_transformations s.

(** The five member functions that change the transform. *)
Inductive mutation : Type :=
  | SetTransform (t : Transform)
  | SetMatrix (mat : Matrix3)
  | SetTranslation (trans : Vector3)
  | SetCentre (centre_in : Vector3)
  | SetOffset (offset_in : Vector3).

Definition mutate (m : mutation) (s : Base) : result Base :=
  match m with
  | SetTransform t => set_transform t s
  | SetMatrix mat => set_matrix mat s
  | SetTranslation trans => set_translation trans s
  | SetCentre c => set_centre c s
  | SetOffset o => set_offset o s
  end.

End HalfSpace.

Section RobustEstimate.

(** [template <class ParamType, class VectorType>]: the only thing asked
    of [VectorType] is [operator+=]. *)
Variables ParamType VectorType : Type.
Variable plus : VectorType -> VectorType -> VectorType.

(** [robust_estimate (gradient, grad_estimates, params, parameter_vector)]:
    returns the updated [gradient] and the [bool] result. *)
Definition robust_estimate (gradient : VectorType) (grad_estimates : list VectorType)
           (params : ParamType) (parameter_vector : VectorType) : VectorType * bool :=
  (fold_left plus grad_estimates gradient, true).

End RobustEstimate.

(** A principal square root that is exact on axis-aligned scalings with a
    translation, [diag (a, b, c) | t] with [a], [b], [c] squares of
    rationals: the root is [diag (sqrt a, sqrt b, sqrt c) | t_i / (sqrt a_i + 1)]. *)
Definition Qsqrt_exact (q : Q) : Q := Z.sqrt (Qnum q) # Pos.sqrt (Qden q).

Definition sqrt_axis_scaling (m : Matrix4) : Matrix4 :=
  let ka := Qsqrt_exact (wx (h0 m)) in
  let kb := Qsqrt_exact (wy (h1 m)) in
  let kc := Qsqrt_exact (wz (h2 m)) in
  mkMatrix4 (mkVector4 ka 0 0 (Qred (ww (h0 m) / (ka + 1))))
            (mkVector4 0 kb 0 (Qred (ww (h1 m) / (kb + 1))))
            (mkVector4 0 0 kc (Qred (ww (h2 m) / (kc + 1))))
            (mkVector4 0 0 0 1).

(* ================================================================== *)
(** ** Vocabulary for the statements about [Base] *)
(* ================================================================== *)

(** The state on which a mutation calls
    [compute_halfspace_transformations]. *)
Definition before_halfspace (m : mutation) (s : Base) : Base :=
  match m with
  | SetTransform t => with_trafo s t
  | SetMatrix mat =>
      compute_offset (with_trafo s (mkTransform mat (translation (trafo s))))
  | SetTranslation trans =>
      compute_offset (with_trafo s (mkTransform (linear (trafo s)) trans))
  | SetCentre centre_in => compute_offset (with_centre s centre_in)
  | SetOffset offset_in => with_trafo s (mkTransform (linear (trafo s)) offset_in)
  end.

(** "Within a small numeric tolerance", as [isApprox] measures it: the
    squared distance is at most [dummy_precision^2] times the smaller of
    the two squared norms. *)
Definition within_tolerance (a b : Transform) : Prop :=
  squaredNorm34 (sub34 a b)
  <= dummy_precision * dummy_precision * mini (squaredNorm34 a) (squaredNorm34 b).

(** A state with centre (1, 2, 3) and the identity transform, and the
    scaling diag (4, 9, 16) used in the examples below. *)
Definition centre_123 : Vector3 := mkVector3 1 2 3.

Definition scaling_4_9_16 : Matrix3 :=
  mkMatrix3 (mkVector3 4 0 0) (mkVector3 0 9 0) (mkVector3 0 0 16).


(** The state reached from a fresh 12-parameter transform by
    [set_centre (1, 2, 3)]. *)
Definition centred_123 : Base := with_centre (Base_new 12) centre_123.

(** [T] maps [p] to [M (p - c) + c + t]: it applies [M] about the centre
    [c] and then translates by [t]. *)
Definition rotates_about (T : Transform) (M : Matrix3) (c t : Vector3) : Prop :=
  forall p, Vector3_eq (apply T p) (add (add (mulv M (sub p c)) c) t).

(** The matrix, translation and centre that a mutation has assigned when
    it reaches [compute_offset] (or, for the two mutations that skip it,
    [compute_halfspace_transformations]). *)
Definition assigned (m : mutation) (s : Base) : Matrix3 * Vector3 * Vector3 :=
  match m with
  | SetTransform t => (linear t, translation t, centre s)
  | SetMatrix mat => (mat, translation (trafo s), centre s)
  | SetTranslation trans => (linear (trafo s), trans, centre s)
  | SetCentre centre_in => (linear (trafo s), translation (trafo s), centre_in)
  | SetOffset offset_in => (linear (trafo s), offset_in, centre s)
  end.

(** Does the mutation call [compute_offset]? *)
Definition recomputes_offset (m : mutation) : bool :=
  match m with
  | SetMatrix _ | SetTranslation _ | SetCentre _ => true
  | SetTransform _ | SetOffset _ => false
  end.

Section SumEstimates.

Variable VectorType : Type.
Variable plus : VectorType -> VectorType -> VectorType.
Variable zero : VectorType.

(** The plain, unweighted sum of a list of estimates. *)
Definition sum_estimates (grad_estimates : list VectorType) : VectorType :=
  fold_right plus zero grad_estimates.

End SumEstimates.

(* ================================================================== *)
(** ** [cmd/mrregister.cpp] *)
(* ================================================================== *)

(** The enumerations of [namespace Registration] that [run] uses. *)
Module Registration.

Inductive LinearMetricType : Type := Diff | NCC.

Inductive LinearRobustMetricEstimatorType : Type := L1 | L2 | LP | None.

(** [Registration::Transform::Init] *)
Inductive InitType : Type := mass | geometric | moments | none.

(** The metric object handed to [run_masked]. *)
Inductive Metric : Type :=
  | MeanSquared
  | MeanSquared4D
  | CrossCorrelation
  | DifferenceRobust (estimator : LinearRobustMetricEstimatorType)
  | DifferenceRobust4D (estimator : LinearRobustMetricEstimatorType).

Definition LinearMetricType_eqb (a b : LinearMetricType) : bool :=
  match a, b with Diff, Diff | NCC, NCC => true | _, _ => false end.

End Registration.

Module Mrregister.

Local Open Scope string_scope.
Local Open Scope Z_scope.

(** *** Inputs *)

(** An image header: the size along each axis. *)
Record Header : Type := mkHeader { axes : list Z }.

Definition ndim (h : Header) : nat := List.length (axes h).
Definition size (h : Header) (axis : nat) : Z := nth axis (axes h) 0.

(** The image named by [-syn_init]: only its number of axes is read. *)
Record WarpImage : Type := mkWarpImage { warp_path : string; warp_ndim : nat }.

(** The command line as [get_options] and [argument] present it, values
    already parsed.  An option is [Some] (or [true]) when
    [get_options (name).size()] is non-zero.  Files are assumed to open
    and parse: failures of the I/O layer are not modelled. *)
Record CommandLine : Type := mkCommandLine {
  argument0 : string;
  argument1 : string;
  im1_header : Header;
  im2_header : Header;
  noreorientation : bool;
  lmax : option Z;
  directions : option string;
  transformed : option string;
  transformed_midway : option (string * string);
  type : option Z;
  mask1 : option string;
  mask2 : option string;
  rigid : option string;
  rigid_init : option string;
  rigid_centre : option Z;
  rigid_scale : option (list Q);
  rigid_niter : option (list Z);
  rigid_metric : option Z;
  rigid_global_search : bool;
  affine : option string;
  affine_1tomidway : option string;
  affine_2tomidway : option string;
  affine_init : option string;
  affine_centre : option Z;
  affine_scale : option (list Q);
  affine_repetitions : option (list Z);
  affine_loop_density : option (list Q);
  affine_metric : option Z;
  affine_robust_estimator : option Z;
  affine_robust_median : bool;
  affine_global_search : bool;
  affine_niter : option (list Z);
  syn_warp : option string;
  syn_init : option WarpImage;
  syn_scale : option (list Q);
  syn_niter : option (list Z);
  syn_update_smooth : option Q;
  syn_disp_smooth : option Q;
  syn_grad_step : option Q
}.

(** *** The calls [run] makes on its collaborators *)

(** The two [Registration::Linear] objects. *)
Inductive LinearRegistration : Type := rigid_registration | affine_registration.

(** The transform objects: [rigid], [affine] and the local
    [identity_transform] of the SyN block. *)
Inductive TransformObject : Type := rigid_transform | affine_transform | identity_transform.

(** Where the argument of a setter comes from. *)
Inductive TransformSource : Type :=
  | load_transform (path : string)
  | get_centre (obj : TransformObject)
  | get_translation (obj : TransformObject)
  | get_matrix (obj : TransformObject).

(** Which matrix of a transform object is read. *)
Inductive TransformPart : Type := get_transform | get_transform_half | get_transform_half_inverse.

Inductive Image : Type :=
  | im1_image | im2_image | im1_transformed | temp_output | im1_midway | im2_midway.

Inductive Event : Type :=
  (* logging *)
  | CONSOLE (msg : string)
  | INFO (msg : string)
  | WARN (msg : string)
  (* images and files *)
  | load_image (filename : string) (num_vols : Z)
  | load_directions (file : option string)
  | create_image (path : string)
  | open_mask (path : string)
  | save_transform (obj : TransformObject) (part : TransformPart) (filename : string)
  | save_warps (filename : string)
  (* transform objects *)
  | set_transform (t : TransformObject) (src : TransformSource)
  | set_centre (t : TransformObject) (src : TransformSource)
  | set_translation (t : TransformObject) (src : TransformSource)
  | set_matrix (t : TransformObject) (src : TransformSource)
  (* linear registration objects *)
  | set_init_type (r : LinearRegistration) (init : Registration.InitType)
  | set_scale_factor (r : LinearRegistration) (factors : list Q)
  | set_max_iter (r : LinearRegistration) (niter : list Z)
  | use_global_search (r : LinearRegistration)
  | set_gradient_descent_repetitions (r : LinearRegistration) (reps : list Z)
  | set_loop_density (r : LinearRegistration) (density : list Q)
  | use_robust_estimate (r : LinearRegistration) (use : bool)
  | set_extent (r : LinearRegistration)
  | set_directions (r : LinearRegistration)
  | run_masked (r : LinearRegistration) (metric : Registration.Metric) (t : TransformObject)
  | write_transformed_images (r : LinearRegistration) (t : TransformObject)
  (* the SyN registration object *)
  | syn_initialise (warps : string)
  | syn_set_scale_factor (factors : list Q)
  | syn_set_max_iter (niter : list Z)
  | syn_set_update_smoothing (v : Q)
  | syn_set_disp_smoothing (v : Q)
  | syn_set_init_grad_step (v : Q)
  | syn_set_aPSF_directions
  | syn_run (seed : TransformObject)
  (* resampling of the outputs *)
  | compose_halfway_transforms
  | compose_linear_displacement (obj : TransformObject) (part : TransformPart)
  | warp (source target : Image)
  | reorient_warp (target : Image)
  | threaded_copy (source target : Image)
  | reslice (t : TransformObject)
  | reorient (t : TransformObject).

(** *** Exceptions and the log of calls *)

Inductive Outcome (A : Type) : Type :=
  | Return (a : A)
  | Exception (msg : string).

Arguments Return {A} a.
Arguments Exception {A} msg.

(** A computation: the calls made so far, and how it ended. *)
Definition M (A : Type) : Type := (list Event * Outcome A)%type.

Definition ret {A : Type} (a : A) : M A := ([], Return a).

Definition throw {A : Type} (msg : string) : M A := ([], Exception msg).

(** A call of a collaborator is logged and taken to return: exceptions
    raised inside the routines that [run] calls are not modelled, so an
    [Exception] is always one thrown by a [throw] statement of [run]
    itself. *)
Definition call (e : Event) : M unit := ([e], Return tt).

Definition bind {A B : Type} (m : M A) (k : A -> M B) : M B :=
  match m with
  | (log, Return a) => let (log', r) := k a in ((log ++ log')%list, r)
  | (log, Exception msg) => (log, Exception msg)
  end.

Notation "x <- m ;; k" := (bind m (fun x => k))
  (at level 61, m at next level, right associativity).
Notation "m ;; k" := (bind m (fun _ => k))
  (at level 61, right associativity).

(** [if (b) body] *)
Definition when (b : bool) (body : M unit) : M unit :=
  if b then body else ret tt.

(** [opt = get_options (...); if (opt.size()) body] *)
Definition with_option {A : Type} (opt : option A) (body : A -> M unit) : M unit :=
  match opt with
  | Some v => body v
  | None => ret tt
  end.

Definition present {A : Type} (opt : option A) : bool :=
  match opt with Some _ => true | None => false end.

(** [str (int)] *)
Definition str (z : Z) : string := NilZero.string_of_int (Z.to_int z).

(** *** [run] *)

(** [val = (sqrt (1 + 8 n) - 3) / 4; !(val - (int) val)]: is [val] a whole
    number?  Evaluated exactly: [1 + 8 n] is a square [r * r] and [r - 3]
    is a multiple of 4.  The code takes the root of [float (1 + 8 n)]:
    for large [n] the rounding can make its test succeed where this one
    fails. *)
Definition whole_SH_order (n : Z) : bool :=
  let r := Z.sqrt (1 + 8 * n) in
  (r * r =? 1 + 8 * n) && ((r - 3) mod 4 =? 0).

Section Run.

(** [Math::SH::LforN] and [Math::SH::NforL], declared in [math/SH.h]. *)
Variable LforN : Z -> Z.
Variable NforL : Z -> Z.

Variable cl : CommandLine.

(** Lines 135-193: the headers are compared and the images loaded.
    Returns [do_reorientation]. *)
Definition load_images : M bool :=
  let im1 := im1_header cl in
  let im2 := im2_header cl in
  if negb (ndim im1 =? ndim im2)%nat
  then throw "input images do not have the same number of dimensions"
  else
    let do_reorientation := negb (noreorientation cl) in
    if (4 <? ndim im2)%nat
    then throw "image dimensions larger than 4 are not supported"
    else if (ndim im2 =? 4)%nat then
      if negb (size im1 3 =? size im2 3)
      then throw "input images do not have the same number of volumes in the 4th dimension"
      else if whole_SH_order (size im2 3) && do_reorientation && (1 <? size im2 3)
      then
        call (CONSOLE "SH series detected, performing FOD registration") ;;
        let lmax0 := if LforN (size im2 3) <? 4 then LforN (size im2 3) else 4 in
        l <- match lmax cl with
             | Some l =>
                 if negb (Z.rem l 2 =? 0)
                 then throw "the input lmax must be even"
                 else ret l
             | None => ret lmax0
             end ;;
        call (INFO ("registering FOD images using lmax = " ++ str l)) ;;
        let num_SH := NforL l in
        if size im2 3 <? num_SH
        then throw "not enough SH coefficients within input image for desired lmax"
        else
          call (load_image (argument0 cl) num_SH) ;;
          call (load_image (argument1 cl) num_SH) ;;
          call (load_directions (directions cl)) ;;
          ret true
      else
        call (load_image (argument0 cl) (size im1 3)) ;;
        call (load_image (argument1 cl) (size im2 3)) ;;
        ret false
    else
      call (load_image (argument0 cl) 1) ;;
      call (load_image (argument1 cl) 1) ;;
      ret false.

(** Lines 198-213: the output image is created.  [im1_transformed] is
    valid afterwards exactly when [-transformed] was given; the midway
    paths are those of [-transformed_midway], else empty. *)
Definition open_outputs : M unit :=
  with_option (transformed cl) (fun path => call (create_image path)).

Definition im1_midway_transformed_path : string :=
  match transformed_midway cl with Some (p1, _) => p1 | None => "" end.

Definition im2_midway_transformed_path : string :=
  match transformed_midway cl with Some (_, p2) => p2 | None => "" end.

(** Lines 215-251: the stages selected by [-type] (default 5,
    [affine_syn]), as [(do_rigid, do_affine, do_syn)]. *)
Definition registration_type : Z :=
  match type cl with Some choice => choice | None => 5 end.

Definition select_stages : bool * bool * bool :=
  match registration_type with
  | 0 => (true, false, false)
  | 1 => (false, true, false)
  | 2 => (false, false, true)
  | 3 => (true, true, false)
  | 4 => (true, false, true)
  | 5 => (false, true, true)
  | 6 => (true, true, true)
  | _ => (false, false, false)
  end.

(** Lines 253-261. *)
Definition open_masks : M unit :=
  with_option (mask2 cl) (fun path => call (open_mask path)) ;;
  with_option (mask1 cl) (fun path => call (open_mask path)).

(** [switch ((int) opt[0][0])] over the initialisation choices. *)
Definition set_init_type_choice (r : LinearRegistration) (choice : Z) : M unit :=
  match choice with
  | 0 => call (set_init_type r Registration.mass)
  | 1 => call (set_init_type r Registration.geometric)
  | 2 => call (set_init_type r Registration.moments)
  | 3 => call (set_init_type r Registration.none)
  | _ => ret tt
  end.

Definition metric_choice (opt : option Z) : Registration.LinearMetricType :=
  match opt with
  | Some 1 => Registration.NCC
  | _ => Registration.Diff
  end.

(** Lines 265-341.  Returns [(init_rigid_set, rigid_metric)];
    [output_rigid] is [present (rigid cl)] once the check has passed. *)
Definition rigid_options (do_rigid : bool)
  : M (bool * Registration.LinearMetricType) :=
  with_option (rigid cl) (fun _ =>
    when (negb do_rigid)
      (throw "rigid transformation output requested when no rigid registration is requested")) ;;
  with_option (rigid_init cl) (fun path =>
    call (set_transform rigid_transform (load_transform path)) ;;
    call (set_init_type rigid_registration Registration.none)) ;;
  let init_rigid_set := present (rigid_init cl) in
  with_option (rigid_centre cl) (fun choice =>
    when init_rigid_set
      (throw "options -rigid_init and -rigid_centre are mutually exclusive") ;;
    set_init_type_choice rigid_registration choice) ;;
  with_option (rigid_scale cl) (fun factors =>
    when (negb do_rigid)
      (throw "the rigid multi-resolution scale factors were input when no rigid registration is requested") ;;
    call (set_scale_factor rigid_registration factors)) ;;
  with_option (rigid_niter cl) (fun niter =>
    when (negb do_rigid)
      (throw "the number of rigid iterations have been input when no rigid registration is requested") ;;
    call (set_max_iter rigid_registration niter)) ;;
  let rigid_metric := metric_choice (rigid_metric cl) in
  when (rigid_global_search cl) (call (use_global_search rigid_registration)) ;;
  ret (init_rigid_set, rigid_metric).

Definition estimator_choice (opt : option Z)
  : Registration.LinearRobustMetricEstimatorType :=
  match opt with
  | Some 0 => Registration.L1
  | Some 1 => Registration.L2
  | Some 2 => Registration.LP
  | _ => Registration.None
  end.

(** Lines 343-478.  Returns
    [(init_affine_set, affine_metric, affine_estimator)]. *)
Definition affine_options (do_rigid do_affine init_rigid_set : bool)
  : M (bool * Registration.LinearMetricType
       * Registration.LinearRobustMetricEstimatorType) :=
  with_option (affine cl) (fun _ =>
    when (negb do_affine)
      (throw "affine transformation output requested when no affine registration is requested")) ;;
  with_option (affine_1tomidway cl) (fun _ =>
    when (negb do_affine)
      (throw "midway affine transformation output requested when no affine registration is requested")) ;;
  with_option (affine_2tomidway cl) (fun _ =>
    when (negb do_affine)
      (throw "midway affine transformation output requested when no affine registration is requested")) ;;
  with_option (affine_init cl) (fun path =>
    when init_rigid_set
      (throw "you cannot initialise registrations with both a rigid and affine transformation") ;;
    when do_rigid
      (throw "you cannot initialise with -affine_init since a rigid registration is being performed") ;;
    call (set_transform affine_transform (load_transform path)) ;;
    call (set_init_type affine_registration Registration.none)) ;;
  let init_affine_set := present (affine_init cl) in
  with_option (affine_centre cl) (fun choice =>
    when init_affine_set
      (throw "options -affine_init and -affine_centre are mutually exclusive") ;;
    set_init_type_choice affine_registration choice) ;;
  with_option (affine_scale cl) (fun factors =>
    when (negb do_affine)
      (throw "the affine multi-resolution scale factors were input when no affine registration is requested") ;;
    call (set_scale_factor affine_registration factors)) ;;
  with_option (affine_repetitions cl) (fun reps =>
    when (negb do_affine)
      (throw "the affine repetition factors were input when no affine registration is requested") ;;
    call (set_gradient_descent_repetitions affine_registration reps)) ;;
  with_option (affine_loop_density cl) (fun density =>
    when (negb do_affine)
      (throw "the affine sparsity factor was input when no affine registration is requested") ;;
    call (set_loop_density affine_registration density)) ;;
  let affine_metric := metric_choice (affine_metric cl) in
  let affine_estimator := estimator_choice (affine_robust_estimator cl) in
  call (use_robust_estimate affine_registration (affine_robust_median cl)) ;;
  when (affine_global_search cl) (call (use_global_search affine_registration)) ;;
  with_option (affine_niter cl) (fun niter =>
    when (negb do_affine)
      (throw "the number of affine iterations have been input when no affine registration is requested") ;;
    call (set_max_iter affine_registration niter)) ;;
  ret (init_affine_set, affine_metric, affine_estimator).

(** Lines 481-564.  [-syn_init] switches the linear stages off; returns
    the updated [(do_rigid, do_affine)].  [syn_init] is
    [present (syn_init cl)] and [warp_filename] is [syn_warp cl]. *)
Definition syn_options (do_rigid do_affine do_syn init_rigid_set init_affine_set : bool)
  : M (bool * bool) :=
  with_option (syn_warp cl) (fun _ =>
    when (negb do_syn)
      (throw "Syn warp output requested when no SyN registration is requested")) ;;
  flags <- match syn_init cl with
           | Some input_warps =>
               when (negb do_syn)
                 (throw "the syn initialisation input when no syn registration is requested") ;;
               when (negb (warp_ndim input_warps =? 5)%nat)
                 (throw "syn initialisation input is not 5D. Input must be from previous syn output") ;;
               call (syn_initialise (warp_path input_warps)) ;;
               when do_affine
                 (call (WARN "no affine registration will be performed when initialising with syn non-linear warps")) ;;
               when do_rigid
                 (call (WARN "no rigid registration will be performed when initialising with syn non-linear warps")) ;;
               when init_affine_set
                 (call (WARN "-affine_init has no effect since the syn init warp also contains the linear transform in the image header")) ;;
               when init_rigid_set
                 (call (WARN "-rigid_init has no effect since the syn init warp also contains the linear transform in the image header")) ;;
               ret (false, false)
           | None => ret (do_rigid, do_affine)
           end ;;
  let syn_init_set := present (syn_init cl) in
  with_option (syn_scale cl) (fun scale_factors =>
    when (negb do_syn)
      (throw "the syn multi-resolution scale factors were input when no syn registration is requested") ;;
    if syn_init_set && (1 <? List.length scale_factors)%nat
    then call (WARN "-syn_scale option ignored since only the full resolution will be performed when initialising with syn warp")
    else call (syn_set_scale_factor scale_factors)) ;;
  with_option (syn_niter cl) (fun iterations_per_level =>
    when (negb do_syn)
      (throw "the number of syn iterations have been input when no SyN registration is requested") ;;
    if syn_init_set && (1 <? List.length iterations_per_level)%nat
    then throw "when initialising the syn registration the max number of iterations can only be defined for a single level"
    else call (syn_set_max_iter iterations_per_level)) ;;
  with_option (syn_update_smooth cl) (fun v =>
    when (negb do_syn)
      (throw "the warp update field smoothing parameter was input when no SyN registration is requested") ;;
    call (syn_set_update_smoothing v)) ;;
  with_option (syn_disp_smooth cl) (fun v =>
    when (negb do_syn)
      (throw "the displacement field smoothing parameter was input when no SyN registration is requested") ;;
    call (syn_set_disp_smoothing v)) ;;
  with_option (syn_grad_step cl) (fun v =>
    when (negb do_syn)
      (throw "the initial gradient step size was input when no SyN registration is requested") ;;
    call (syn_set_init_grad_step v)) ;;
  ret flags.

(** [im1_image.ndim()] and [im2_image.ndim()]: [load_image] keeps the
    number of axes of the header, and the two headers agree once
    [load_images] has returned. *)
Definition image_ndim : nat := ndim (im2_header cl).

(** Lines 567-591. *)
Definition run_rigid (do_rigid : bool) (rigid_metric : Registration.LinearMetricType)
  : M unit :=
  when do_rigid
    (call (CONSOLE "running rigid registration") ;;
     (if (image_ndim =? 4)%nat then
        when (Registration.LinearMetricType_eqb rigid_metric Registration.NCC)
          (throw "cross correlation metric not implemented for data with more than 3 dimensions") ;;
        call (run_masked rigid_registration Registration.MeanSquared4D rigid_transform)
      else
        if Registration.LinearMetricType_eqb rigid_metric Registration.NCC then
          call (set_extent rigid_registration) ;;
          call (run_masked rigid_registration Registration.CrossCorrelation rigid_transform)
        else
          call (run_masked rigid_registration Registration.MeanSquared rigid_transform)) ;;
     with_option (rigid cl) (fun rigid_filename =>
       call (save_transform rigid_transform get_transform rigid_filename))).

(** The estimator cascade of the affine stage:
    [if (affine_estimator == None) ... else if (... == L1) ...].  The
    closing [else throw Exception ("FIXME: ...")] branches have no value of
    the enumerations left to reach them. *)
Definition run_affine_difference (four_d : bool)
           (affine_estimator : Registration.LinearRobustMetricEstimatorType)
  : M unit :=
  match affine_estimator with
  | Registration.None =>
      call (run_masked affine_registration
              (if four_d then Registration.MeanSquared4D else Registration.MeanSquared)
              affine_transform)
  | Registration.L1 =>
      call (run_masked affine_registration
              (if four_d then Registration.DifferenceRobust4D Registration.L1
               else Registration.DifferenceRobust Registration.L1)
              affine_transform)
  | Registration.L2 =>
      call (run_masked affine_registration
              (if four_d then Registration.DifferenceRobust4D Registration.L2
               else Registration.DifferenceRobust Registration.L2)
              affine_transform)
  | Registration.LP =>
      call (run_masked affine_registration
              (if four_d then Registration.DifferenceRobust4D Registration.LP
               else Registration.DifferenceRobust Registration.LP)
              affine_transform)
  end.

(** Lines 593-663. *)
Definition run_affine (do_rigid do_affine do_reorientation : bool)
           (affine_metric : Registration.LinearMetricType)
           (affine_estimator : Registration.LinearRobustMetricEstimatorType)
  : M unit :=
  when do_affine
    (call (CONSOLE "running affine registration") ;;
     when do_rigid
       (call (set_centre affine_transform (get_centre rigid_transform)) ;;
        call (set_translation affine_transform (get_translation rigid_transform)) ;;
        call (set_matrix affine_transform (get_matrix rigid_transform)) ;;
        call (set_init_type affine_registration Registration.none)) ;;
     when do_reorientation (call (set_directions affine_registration)) ;;
     (if (image_ndim =? 4)%nat then
        match affine_metric with
        | Registration.NCC =>
            throw "cross correlation metric not implemented for data with more than 3 dimensions"
        | Registration.Diff =>
            run_affine_difference true affine_estimator
        end
      else
        match affine_metric with
        | Registration.NCC =>
            call (set_extent affine_registration) ;;
            call (run_masked affine_registration Registration.CrossCorrelation
                             affine_transform)
        | Registration.Diff =>
            run_affine_difference false affine_estimator
        end) ;;
     with_option (affine cl) (fun affine_filename =>
       call (save_transform affine_transform get_transform affine_filename)) ;;
     with_option (affine_1tomidway cl) (fun affine_1tomid_filename =>
       call (save_transform affine_transform get_transform_half affine_1tomid_filename)) ;;
     with_option (affine_2tomidway cl) (fun affine_2tomid_filename =>
       call (save_transform affine_transform get_transform_half_inverse
                            affine_2tomid_filename))).

(** The transform handed to [syn_registration.run]. *)
Definition syn_seed (do_rigid do_affine : bool) : TransformObject :=
  if do_affine then affine_transform
  else if do_rigid then rigid_transform
  else identity_transform.

(** Lines 666-688. *)
Definition run_syn (do_rigid do_affine do_syn do_reorientation : bool) : M unit :=
  when do_syn
    (call (CONSOLE "running SyN registration") ;;
     when do_reorientation (call syn_set_aPSF_directions) ;;
     call (syn_run (syn_seed do_rigid do_affine)) ;;
     with_option (syn_warp cl) (fun warp_filename =>
       when (negb (String.eqb warp_filename "")) (call (save_warps warp_filename)))).

(** Lines 692-727: [im1_image] resampled into the space of [im2_image]. *)
Definition write_transformed (do_affine do_syn do_reorientation : bool) : M unit :=
  when (present (transformed cl))
    (call (INFO "Outputting tranformed input images...") ;;
     if do_syn then
       call compose_halfway_transforms ;;
       if (image_ndim =? 3)%nat then
         call (warp im1_image im1_transformed)
       else
         call (warp im1_image temp_output) ;;
         when do_reorientation (call (reorient_warp temp_output)) ;;
         call (threaded_copy temp_output im1_transformed)
     else if do_affine then
       call (reslice affine_transform) ;;
       when do_reorientation (call (reorient affine_transform))
     else
       call (reslice rigid_transform) ;;
       when do_reorientation (call (reorient rigid_transform))).

Definition warp_to_midway (source target : Image) (do_reorientation : bool) : M unit :=
  if (image_ndim =? 3)%nat then
    call (warp source target)
  else
    call (warp source temp_output) ;;
    when do_reorientation (call (reorient_warp temp_output)) ;;
    call (threaded_copy temp_output target).

(** Lines 730-773: both images resampled into the midway space. *)
Definition write_transformed_midway (do_affine do_syn do_reorientation : bool)
  : M unit :=
  when (negb (String.eqb im1_midway_transformed_path "")
        && negb (String.eqb im2_midway_transformed_path ""))
    (if do_syn then
       call (compose_linear_displacement affine_transform get_transform_half) ;;
       call (create_image im1_midway_transformed_path) ;;
       warp_to_midway im1_image im1_midway do_reorientation ;;
       call (compose_linear_displacement affine_transform get_transform_half_inverse) ;;
       call (create_image im2_midway_transformed_path) ;;
       warp_to_midway im2_image im2_midway do_reorientation
     else if do_affine then
       call (write_transformed_images affine_registration affine_transform)
     else
       call (write_transformed_images rigid_registration rigid_transform)).

(** The local variables of [run] that are still read after the option
    blocks (line 566 onwards). *)
Record Settings : Type := mkSettings {
  do_reorientation : bool;
  do_rigid : bool;
  do_affine : bool;
  do_syn : bool;
  rigid_metric_ : Registration.LinearMetricType;
  affine_metric_ : Registration.LinearMetricType;
  affine_estimator_ : Registration.LinearRobustMetricEstimatorType
}.

(** Lines 135-564: everything up to the first registration stage. *)
Definition read_command_line : M Settings :=
  do_reorientation <- load_images ;;
  open_outputs ;;
  let '(do_rigid, do_affine, do_syn) := select_stages in
  open_masks ;;
  r <- rigid_options do_rigid ;;
  let '(init_rigid_set, rigid_metric) := r in
  a <- affine_options do_rigid do_affine init_rigid_set ;;
  let '(init_affine_set, affine_metric, affine_estimator) := a in
  flags <- syn_options do_rigid do_affine do_syn init_rigid_set init_affine_set ;;
  let '(do_rigid, do_affine) := flags in
  ret (mkSettings do_reorientation do_rigid do_affine do_syn
                  rigid_metric affine_metric affine_estimator).

(** Lines 567-773: the stages in turn, then the outputs. *)
Definition register (s : Settings) : M unit :=
  run_rigid (do_rigid s) (rigid_metric_ s) ;;
  run_affine (do_rigid s) (do_affine s) (do_reorientation s)
             (affine_metric_ s) (affine_estimator_ s) ;;
  run_syn (do_rigid s) (do_affine s) (do_syn s) (do_reorientation s) ;;
  write_transformed (do_affine s) (do_syn s) (do_reorientation s) ;;
  write_transformed_midway (do_affine s) (do_syn s) (do_reorientation s).

(** [void run ()] *)
Definition run : M unit :=
  s <- read_command_line ;;
  register s.

End Run.

(** *** Reading a log *)

(** An optimisation is started by [run_masked] and by [syn_registration.run]. *)
Definition is_optimisation (e : Event) : bool :=
  match e with
  | run_masked _ _ _ | syn_run _ => true
  | _ => false
  end.

(** The calls that resample an image or prepare a deformation for it. *)
Definition is_resampling (e : Event) : bool :=
  match e with
  | compose_halfway_transforms | compose_linear_displacement _ _
  | warp _ _ | reorient_warp _ | threaded_copy _ _
  | reslice _ | reorient _ | write_transformed_images _ _ => true
  | _ => false
  end.

(** Neither an optimisation nor a resampling. *)
Definition is_preparation (e : Event) : bool :=
  negb (is_optimisation e) && negb (is_resampling e).

(** Every call in the log of [m] satisfies [P]. *)
Definition log_all {A : Type} (P : Event -> bool) (m : M A) : Prop :=
  forallb P (fst m) = true.

(** [m] returns, whatever it logs. *)
Definition returns {A : Type} (m : M A) : Prop := exists a, snd m = Return a.

(** [m] ended with an exception. *)
Definition fails {A : Type} (m : M A) : Prop :=
  exists msg, snd m = Exception msg.

(** The three stages that [-type] selects from. *)
Inductive Stage : Type := Rigid | Affine | SyN.

Definition selected (cl : CommandLine) (st : Stage) : bool :=
  let '(do_rigid, do_affine, do_syn) := select_stages cl in
  match st with Rigid => do_rigid | Affine => do_affine | SyN => do_syn end.

(** A selected stage is executed unless [-syn_init] supersedes it; the
    SyN stage is never superseded. *)
Definition executed (cl : CommandLine) (st : Stage) : bool :=
  match st with
  | SyN => selected cl SyN
  | _ => selected cl st && negb (present (syn_init cl))
  end.

(** The stage-specific options of the command line. *)
Inductive StageOption : Type :=
  | opt_rigid | opt_rigid_init | opt_rigid_centre | opt_rigid_scale | opt_rigid_niter
  | opt_rigid_metric | opt_rigid_global_search
  | opt_affine | opt_affine_1tomidway | opt_affine_2tomidway | opt_affine_init
  | opt_affine_centre | opt_affine_scale | opt_affine_repetitions
  | opt_affine_loop_density | opt_affine_metric | opt_affine_robust_estimator
  | opt_affine_robust_median | opt_affine_global_search | opt_affine_niter
  | opt_syn_warp | opt_syn_init | opt_syn_scale | opt_syn_niter
  | opt_syn_update_smooth | opt_syn_disp_smooth | opt_syn_grad_step.

Definition stage_of (o : StageOption) : Stage :=
  match o with
  | opt_rigid | opt_rigid_init | opt_rigid_centre | opt_rigid_scale | opt_rigid_niter
  | opt_rigid_metric | opt_rigid_global_search => Rigid
  | opt_affine | opt_affine_1tomidway | opt_affine_2tomidway | opt_affine_init
  | opt_affine_centre | opt_affine_scale | opt_affine_repetitions
  | opt_affine_loop_density | opt_affine_metric | opt_affine_robust_estimator
  | opt_affine_robust_median | opt_affine_global_search | opt_affine_niter => Affine
  | opt_syn_warp | opt_syn_init | opt_syn_scale | opt_syn_niter
  | opt_syn_update_smooth | opt_syn_disp_smooth | opt_syn_grad_step => SyN
  end.

Definition supplied (cl : CommandLine) (o : StageOption) : bool :=
  match o with
  | opt_rigid => present (rigid cl)
  | opt_rigid_init => present (rigid_init cl)
  | opt_rigid_centre => present (rigid_centre cl)
  | opt_rigid_scale => present (rigid_scale cl)
  | opt_rigid_niter => present (rigid_niter cl)
  | opt_rigid_metric => present (rigid_metric cl)
  | opt_rigid_global_search => rigid_global_search cl
  | opt_affine => present (affine cl)
  | opt_affine_1tomidway => present (affine_1tomidway cl)
  | opt_affine_2tomidway => present (affine_2tomidway cl)
  | opt_affine_init => present (affine_init cl)
  | opt_affine_centre => present (affine_centre cl)
  | opt_affine_scale => present (affine_scale cl)
  | opt_affine_repetitions => present (affine_repetitions cl)
  | opt_affine_loop_density => present (affine_loop_density cl)
  | opt_affine_metric => present (affine_metric cl)
  | opt_affine_robust_estimator => present (affine_robust_estimator cl)
  | opt_affine_robust_median => affine_robust_median cl
  | opt_affine_global_search => affine_global_search cl
  | opt_affine_niter => present (affine_niter cl)
  | opt_syn_warp => present (syn_warp cl)
  | opt_syn_init => present (syn_init cl)
  | opt_syn_scale => present (syn_scale cl)
  | opt_syn_niter => present (syn_niter cl)
  | opt_syn_update_smooth => present (syn_update_smooth cl)
  | opt_syn_disp_smooth => present (syn_disp_smooth cl)
  | opt_syn_grad_step => present (syn_grad_step cl)
  end.

(** The options whose block in [run] starts with
    [if (!do_<stage>) throw Exception (...)]. *)
Definition guarded (o : StageOption) : bool :=
  match o with
  | opt_rigid | opt_rigid_scale | opt_rigid_niter
  | opt_affine | opt_affine_1tomidway | opt_affine_2tomidway
  | opt_affine_scale | opt_affine_repetitions | opt_affine_loop_density
  | opt_affine_niter
  | opt_syn_warp | opt_syn_init | opt_syn_scale | opt_syn_niter
  | opt_syn_update_smooth | opt_syn_disp_smooth | opt_syn_grad_step => true
  | _ => false
  end.

(** The two linear stages, by their registration object. *)
Definition linear_stage (r : LinearRegistration) : Stage :=
  match r with rigid_registration => Rigid | affine_registration => Affine end.

(** The metric that [-rigid_metric] or [-affine_metric] selects. *)
Definition selected_metric (cl : CommandLine) (r : LinearRegistration)
  : Registration.LinearMetricType :=
  match r with
  | rigid_registration => metric_choice (rigid_metric cl)
  | affine_registration => metric_choice (affine_metric cl)
  end.

(** What may have happened before the optimisation of stage [r] starts:
    preparation, and for the affine stage the rigid optimisation. *)
Definition before_stage (r : LinearRegistration) (e : Event) : bool :=
  match e, r with
  | run_masked rigid_registration _ _, affine_registration => true
  | _, _ => is_preparation e
  end.





(** A call that sets the [affine] transform object. *)
Definition sets_affine_transform (e : Event) : bool :=
  match e with
  | set_transform affine_transform _ | set_centre affine_transform _
  | set_translation affine_transform _ | set_matrix affine_transform _ => true
  | _ => false
  end.



End Mrregister.

(** Command lines for the examples: [mrregister image1 image2] on two
    images with the same header, with [-type], [-transformed],
    [-rigid_metric], [-affine_metric], [-affine_repetitions], [-syn_init]
    and [-syn_niter] as given and no other option. *)
Definition example_command_line (header : Mrregister.Header) (type : option Z)
           (transformed : option string) (rigid_metric affine_metric : option Z)
           (affine_repetitions : option (list Z))
           (syn_init : option Mrregister.WarpImage) (syn_niter : option (list Z))
  : Mrregister.CommandLine :=
  {| Mrregister.argument0 := "image1.mif";
     Mrregister.argument1 := "image2.mif";
     Mrregister.im1_header := header;
     Mrregister.im2_header := header;
     Mrregister.noreorientation := false;
     Mrregister.lmax := None;
     Mrregister.directions := None;
     Mrregister.transformed := transformed;
     Mrregister.transformed_midway := None;
     Mrregister.type := type;
     Mrregister.mask1 := None;
     Mrregister.mask2 := None;
     Mrregister.rigid := None;
     Mrregister.rigid_init := None;
     Mrregister.rigid_centre := None;
     Mrregister.rigid_scale := None;
     Mrregister.rigid_niter := None;
     Mrregister.rigid_metric := rigid_metric;
     Mrregister.rigid_global_search := false;
     Mrregister.affine := None;
     Mrregister.affine_1tomidway := None;
     Mrregister.affine_2tomidway := None;
     Mrregister.affine_init := None;
     Mrregister.affine_centre := None;
     Mrregister.affine_scale := None;
     Mrregister.affine_repetitions := affine_repetitions;
     Mrregister.affine_loop_density := None;
     Mrregister.affine_metric := affine_metric;
     Mrregister.affine_robust_estimator := None;
     Mrregister.affine_robust_median := false;
     Mrregister.affine_global_search := false;
     Mrregister.affine_niter := None;
     Mrregister.syn_warp := None;
     Mrregister.syn_init := syn_init;
     Mrregister.syn_scale := None;
     Mrregister.syn_niter := syn_niter;
     Mrregister.syn_update_smooth := None;
     Mrregister.syn_disp_smooth := None;
     Mrregister.syn_grad_step := None |}.

(** A 3-D header, and a 4-D header with two volumes (not the size of a
    spherical-harmonic series). *)
Definition header_3D : Mrregister.Header := Mrregister.mkHeader [96; 96; 60]%Z.
Definition header_4D : Mrregister.Header := Mrregister.mkHeader [96; 96; 60; 2]%Z.

(** The number of even-order spherical-harmonic coefficients up to order
    [lmax], and the largest even order that [N] coefficients cover; used to
    instantiate [NforL] and [LforN] in the examples. *)
Definition NforL_even (lmax : Z) : Z := ((lmax + 1) * (lmax + 2) / 2)%Z.
Definition LforN_even (N : Z) : Z :=
  (if N =? 0 then 0 else 2 * ((Z.sqrt (1 + 8 * N) - 3) / 4))%Z.

(** The message of the exception thrown for cross-correlation on 4-D data. *)
Definition ncc_4D_message : string :=
  "cross correlation metric not implemented for data with more than 3 dimensions".

(** [mrregister -type rigid -rigid_metric ncc] on 4-D images. *)
Definition cl_rigid_ncc_4D : Mrregister.CommandLine :=
  example_command_line header_4D (Some 0%Z) None (Some 1%Z) None None None None.

(** [mrregister -type rigid_affine -affine_metric ncc -transformed out.mif]
    on 4-D images. *)
Definition cl_rigid_affine_ncc_4D : Mrregister.CommandLine :=
  example_command_line header_4D (Some 3%Z) (Some "out.mif"%string) None (Some 1%Z)
                       None None None.

(** [mrregister -type affine -rigid_metric ncc] on 4-D images. *)
Definition cl_affine_rigid_ncc_4D : Mrregister.CommandLine :=
  example_command_line header_4D (Some 1%Z) None (Some 1%Z) None None None None.

(** [mrregister -type syn -syn_init warps.mif] with a 4-D [warps.mif]. *)
Definition cl_syn_init_4D_bundle : Mrregister.CommandLine :=
  example_command_line header_3D (Some 2%Z) None None None None
                       (Some (Mrregister.mkWarpImage "warps.mif" 4)) None.

(** [mrregister -type syn -syn_init warps.mif -syn_niter 10,20] with a 5-D
    [warps.mif]. *)
Definition cl_syn_init_two_levels : Mrregister.CommandLine :=
  example_command_line header_3D (Some 2%Z) None None None None
                       (Some (Mrregister.mkWarpImage "warps.mif" 5))
                       (Some [10; 20]%Z).


(** [mrregister -type rigid -affine_repetitions 2]. *)
Definition cl_rigid_with_affine_repetitions : Mrregister.CommandLine :=
  example_command_line header_3D (Some 0%Z) None None None (Some [2]%Z) None None.

(** [mrregister -type rigid -affine_metric ncc]. *)
Definition cl_rigid_with_affine_metric : Mrregister.CommandLine :=
  example_command_line header_3D (Some 0%Z) None None (Some 1%Z) None None None.


(* ================================================================== *)
(** ** Further vocabulary and examples *)
(* ================================================================== *)

(** [sqrt] returns an exact square root of the homogeneous form of [T]:
    the 3x4 block of the root, composed with itself, is [T]. *)
Definition exact_root (sqrt : Matrix4 -> Matrix4) (T : Transform) : Prop :=
  Transform_eq (compose (block34 (sqrt (homogeneous T))) (block34 (sqrt (homogeneous T)))) T.

(** A scaling by (4, 9, 16) followed by the translation (3, 8, 15); its
    square root scales by (2, 3, 4) and translates by (1, 2, 3). *)
Definition scaling_then_translation : Transform :=
  mkTransform scaling_4_9_16 (mkVector3 3 8 15).

(** The states reached from a fresh transform by [set_matrix] with the
    scaling diag (4, 9, 16), then [set_centre (1, 2, 3)], then
    [set_centre (1, 2, 3)] again, with [sqrt_axis_scaling] as the root. *)
Definition state_after (steps : list mutation) : Base :=
  fold_left (fun s m => match mutate sqrt_axis_scaling m s with
                        | Done s' => s'
                        | AssertionFailed _ => s
                        end) steps (Base_new 12).

Definition scaled : Base :=
  Eval vm_compute in state_after [SetMatrix scaling_4_9_16].

Definition scaled_centred : Base :=
  Eval vm_compute in state_after [SetMatrix scaling_4_9_16; SetCentre centre_123].

Definition scaled_centred_twice : Base :=
  Eval vm_compute in
    state_after [SetMatrix scaling_4_9_16; SetCentre centre_123; SetCentre centre_123].

(** The state reached from a fresh transform by [set_transform] with
    [scaling_then_translation]. *)
Definition scaled_translated : Base :=
  Eval vm_compute in state_after [SetTransform scaling_then_translation].

(** [set_optimiser_weights]: the assertion compares the number of
    parameters with the current length of [optimiser_weights]; the
    assignment of a [Vector3] to the dynamic-size [Eigen::VectorXd] then
    resizes it to three entries. *)
Definition set_optimiser_weights (weights : Vector3) (s : Base) : result Base :=
  check (size s =? List.length (optimiser_weights s))%nat
    as "size() == (size_t)optimiser_weights.size()" ;;
  Done (mkBase (number_of_parameters s) (trafo s) (trafo_half s)
               (trafo_half_inverse s) (centre s)
               [Some (vx weights); Some (vy weights); Some (vz weights)]).

Definition get_optimiser_weights (s : Base) : list (option Q) := optimiser_weights s.

(** More command lines for the examples: [mrregister image1 image2] on
    two images with the same header, with [-noreorientation], [-lmax],
    [-type], [-transformed], [-transformed_midway], [-rigid],
    [-rigid_init], [-rigid_centre], [-affine_init], [-syn_init] and
    [-syn_scale] as given and no other option. *)
Definition example_options (header : Mrregister.Header) (noreorientation : bool)
           (lmax : option Z) (type : option Z) (transformed : option string)
           (transformed_midway : option (string * string))
           (rigid rigid_init : option string) (rigid_centre : option Z)
           (affine_init : option string)
           (syn_init : option Mrregister.WarpImage) (syn_scale : option (list Q))
  : Mrregister.CommandLine :=
  {| Mrregister.argument0 := "image1.mif";
     Mrregister.argument1 := "image2.mif";
     Mrregister.im1_header := header;
     Mrregister.im2_header := header;
     Mrregister.noreorientation := noreorientation;
     Mrregister.lmax := lmax;
     Mrregister.directions := None;
     Mrregister.transformed := transformed;
     Mrregister.transformed_midway := transformed_midway;
     Mrregister.type := type;
     Mrregister.mask1 := None;
     Mrregister.mask2 := None;
     Mrregister.rigid := rigid;
     Mrregister.rigid_init := rigid_init;
     Mrregister.rigid_centre := rigid_centre;
     Mrregister.rigid_scale := None;
     Mrregister.rigid_niter := None;
     Mrregister.rigid_metric := None;
     Mrregister.rigid_global_search := false;
     Mrregister.affine := None;
     Mrregister.affine_1tomidway := None;
     Mrregister.affine_2tomidway := None;
     Mrregister.affine_init := affine_init;
     Mrregister.affine_centre := None;
     Mrregister.affine_scale := None;
     Mrregister.affine_repetitions := None;
     Mrregister.affine_loop_density := None;
     Mrregister.affine_metric := None;
     Mrregister.affine_robust_estimator := None;
     Mrregister.affine_robust_median := false;
     Mrregister.affine_global_search := false;
     Mrregister.affine_niter := None;
     Mrregister.syn_warp := None;
     Mrregister.syn_init := syn_init;
     Mrregister.syn_scale := syn_scale;
     Mrregister.syn_niter := None;
     Mrregister.syn_update_smooth := None;
     Mrregister.syn_disp_smooth := None;
     Mrregister.syn_grad_step := None |}.

(** A 4-D header with 15 volumes: the size of a spherical-harmonic series
    of order 4. *)
Definition header_SH15 : Mrregister.Header := Mrregister.mkHeader [96; 96; 60; 15]%Z.

(** A 4-D header with 45 volumes: a spherical-harmonic series of order 8. *)
Definition header_SH45 : Mrregister.Header := Mrregister.mkHeader [96; 96; 60; 45]%Z.

(** [mrregister -type rigid_affine_syn -transformed out.mif] on images
    with 45 volumes. *)
Definition cl_SH45 : Mrregister.CommandLine :=
  example_options header_SH45 false None (Some 6%Z) (Some "out.mif"%string) None
                  None None None None None None.

(** [mrregister -type rigid -lmax 10] on images with 45 volumes: order 10
    takes 66 coefficients. *)
Definition cl_SH45_lmax_10 : Mrregister.CommandLine :=
  example_options header_SH45 false (Some 10%Z) (Some 0%Z) None None
                  None None None None None None.

(** [mrregister -type rigid -rigid_init init.txt -rigid_centre 0]. *)
Definition cl_rigid_init_and_centre : Mrregister.CommandLine :=
  example_options header_3D false None (Some 0%Z) None None None
                  (Some "init.txt"%string) (Some 0%Z) None None None.

(** [mrregister -type rigid_syn -rigid rigid.txt -syn_init warps.mif
    -syn_scale 0.5,1 -transformed out.mif] with a 5-D [warps.mif]. *)
Definition cl_resumed_with_outputs : Mrregister.CommandLine :=
  example_options header_3D false None (Some 4%Z) (Some "out.mif"%string) None
                  (Some "rigid.txt"%string) None None None
                  (Some (Mrregister.mkWarpImage "warps.mif" 5))
                  (Some [1 # 2; 1]).

(** [mrregister -type rigid_syn -transformed_midway mid1.mif mid2.mif]. *)
Definition cl_rigid_syn_midway : Mrregister.CommandLine :=
  example_options header_3D false None (Some 4%Z) None
                  (Some ("mid1.mif"%string, "mid2.mif"%string))
                  None None None None None None.

(** [mrregister -type rigid_affine_syn -noreorientation -transformed out.mif]
    on images with 15 volumes. *)
Definition cl_SH15_noreorientation : Mrregister.CommandLine :=
  example_options header_SH15 true None (Some 6%Z) (Some "out.mif"%string) None
                  None None None None None None.

(** [mrregister] on a 3-D and a 4-D image. *)
Definition cl_3D_against_4D : Mrregister.CommandLine :=
  {| Mrregister.argument0 := "image1.mif";
     Mrregister.argument1 := "image2.mif";
     Mrregister.im1_header := header_3D;
     Mrregister.im2_header := header_4D;
     Mrregister.noreorientation := false;
     Mrregister.lmax := None;
     Mrregister.directions := None;
     Mrregister.transformed := Some "out.mif"%string;
     Mrregister.transformed_midway := None;
     Mrregister.type := None;
     Mrregister.mask1 := Some "mask1.mif"%string;
     Mrregister.mask2 := None;
     Mrregister.rigid := None;
     Mrregister.rigid_init := None;
     Mrregister.rigid_centre := None;
     Mrregister.rigid_scale := None;
     Mrregister.rigid_niter := None;
     Mrregister.rigid_metric := None;
     Mrregister.rigid_global_search := false;
     Mrregister.affine := None;
     Mrregister.affine_1tomidway := None;
     Mrregister.affine_2tomidway := None;
     Mrregister.affine_init := None;
     Mrregister.affine_centre := None;
     Mrregister.affine_scale := None;
     Mrregister.affine_repetitions := None;
     Mrregister.affine_loop_density := None;
     Mrregister.affine_metric := None;
     Mrregister.affine_robust_estimator := None;
     Mrregister.affine_robust_median := false;
     Mrregister.affine_global_search := false;
     Mrregister.affine_niter := None;
     Mrregister.syn_warp := None;
     Mrregister.syn_init := None;
     Mrregister.syn_scale := None;
     Mrregister.syn_niter := None;
     Mrregister.syn_update_smooth := None;
     Mrregister.syn_disp_smooth := None;
     Mrregister.syn_grad_step := None |}.

(** [void load_image (filename, num_vols, image)] of [mrregister.cpp],
    lines 110-126, as the header of the image it leaves in [image], given
    the header of the file: when [num_vols] is above one and differs from
    the size of the file along axis 3, the image is a scratch copy with
    [num_vols] volumes; otherwise the file is opened as it is.  Only the
    axes are kept; data type and strides are not modelled.  [num_vols] is
    a [size_t]: the function is meant for [num_vols] that are not
    negative. *)
Module LoadImage.

Import Mrregister.

(** [header.size (axis) = n] *)
Definition set_size (header : Header) (axis : nat) (n : Z) : Header :=
  mkHeader (firstn axis (axes header) ++ n :: skipn (S axis) (axes header)).

Definition load_image (header : Header) (num_vols : Z) : Header :=
  if (1 <? num_vols)%Z && negb (num_vols =? size header 3)%Z
  then set_size header 3 num_vols
  else header.

End LoadImage.

Module MrregisterLog.

Import Mrregister.

(** The calls that reorient spherical-harmonic data or prepare for it. *)
Definition is_reorientation (e : Event) : bool :=
  match e with
  | load_directions _ | set_directions _ | syn_set_aPSF_directions
  | reorient_warp _ | reorient _ => true
  | _ => false
  end.

Definition is_save_transform (e : Event) : bool :=
  match e with save_transform _ _ _ => true | _ => false end.

Definition is_syn_set_scale_factor (e : Event) : bool :=
  match e with syn_set_scale_factor _ => true | _ => false end.

Definition is_load_image (e : Event) : bool :=
  match e with load_image _ _ => true | _ => false end.

(** A load of another number of volumes than [num_vols] is excluded. *)
Definition loads (num_vols : Z) (e : Event) : bool :=
  match e with load_image _ n => (n =? num_vols)%Z | _ => true end.

(** No more volumes than each header has along its fourth axis; one
    volume for images that are not 4-D. *)
Definition volumes_within (cl : CommandLine) (num_vols : Z) : Prop :=
  if (ndim (im2_header cl) =? 4)%nat
  then (num_vols <= size (im1_header cl) 3 /\ num_vols <= size (im2_header cl) 3)%Z
  else num_vols = 1%Z.



(** A call that creates an image file or resamples into one:
    [Image::create] for [-transformed] and [-transformed_midway]
    ([create_image]) and for [-syn_warp] (inside [save_warps]), and the
    resampling calls. *)
Definition writes_image (e : Event) : bool :=
  match e with
  | create_image _ | save_warps _ => true
  | _ => is_resampling e
  end.

Definition warn_syn_scale_ignored : Event :=
  WARN "-syn_scale option ignored since only the full resolution will be performed when initialising with syn warp".

(** The two headers disagree in a way that [run] tests before it loads
    anything. *)
Definition headers_disagree (cl : CommandLine) : Prop :=
  ndim (im1_header cl) <> ndim (im2_header cl)
  \/ (4 < ndim (im2_header cl))%nat
  \/ (ndim (im2_header cl) = 4%nat
      /\ size (im1_header cl) 3 <> size (im2_header cl) 3).

(** Two initialisations that [run] refuses together. *)
Definition initialisations_clash (cl : CommandLine) : Prop :=
  (present (rigid_init cl) = true /\ present (rigid_centre cl) = true)
  \/ (present (affine_init cl) = true /\ present (affine_centre cl) = true)
  \/ (present (affine_init cl) = true /\ present (rigid_init cl) = true)
  \/ (present (affine_init cl) = true /\ selected cl Rigid = true).

(** [run] takes the input for a spherical-harmonic series: the images
    are 4-D with more than one volume, [-noreorientation] is absent, and
    the number of volumes passes the test of line 157-158. *)
Definition may_reorient (cl : CommandLine) : bool :=
  (ndim (im2_header cl) =? 4)%nat
  && whole_SH_order (size (im2_header cl) 3)
  && negb (noreorientation cl)
  && (1 <? size (im2_header cl) 3)%Z.

(** [do_reorientation] is switched off whatever the number of volumes
    looks like: the images are not 4-D, or [-noreorientation] is given, or
    there is at most one volume. *)
Definition reorientation_off (cl : CommandLine) : Prop :=
  ndim (im2_header cl) <> 4%nat
  \/ noreorientation cl = true
  \/ (size (im2_header cl) 3 <= 1)%Z.

End MrregisterLog.

(* ================================================================== *)
(** ** [testing/cmd/testing_diff_tsf.cpp] *)
(* ================================================================== *)

Module TestingDiffTsf.

(** The two exceptions of [run].  The text of the second is built from
    the file names, the tolerance and the two offending values; they are
    kept as they are instead of being printed. *)
Inductive Exception : Type :=
  | length_mismatch
  | value_mismatch (tsf1 tsf2 : string) (tol a b : Q).

(** [checked_OK] is the normal end, after
    [CONSOLE ("track scalar files checked OK")]. *)
Inductive Outcome : Type :=
  | checked_OK
  | thrown (e : Exception).

(** The [for] loop over one pair of tracks of equal size: the first pair
    of values with [std::abs (a - b) > tol], if any. *)
Fixpoint first_mismatch (tol : Q) (tck_scalar1 tck_scalar2 : list Q) : option (Q * Q) :=
  match tck_scalar1, tck_scalar2 with
  | a :: rest1, b :: rest2 =>
      if negb (Qle_bool (Qabs (a - b)) tol) then Some (a, b)
      else first_mismatch tol rest1 rest2
  | _, _ => None
  end.

(** [run]: [value_type] is [float], idealised as an exact rational like
    [default_type].  [argument0] and [argument1] name the two files, [tol]
    is [argument[2]], and each reader is the list of tracks its file still
    holds; a call [reader (tck_scalar)] takes the head and is false on the
    empty list.  [check_properties_match], which compares the two file
    headers, is outside this file and taken to pass. *)
Fixpoint run (argument0 argument1 : string) (tol : Q)
         (reader1 reader2 : list (list Q)) : Outcome :=
  match reader1 with
  | [] => checked_OK
  | tck_scalar1 :: reader1 =>
      match reader2 with
      | [] => checked_OK
      | tck_scalar2 :: reader2 =>
          if negb (List.length tck_scalar1 =? List.length tck_scalar2)%nat
          then thrown length_mismatch
          else
            match first_mismatch tol tck_scalar1 tck_scalar2 with
            | Some (a, b) => thrown (value_mismatch argument0 argument1 tol a b)
            | None => run argument0 argument1 tol reader1 reader2
            end
      end
  end.

(** Two values agree within the tolerance. *)
Definition close (tol a b : Q) : Prop := Qabs (a - b) <= tol.

(** Two tracks agree: same number of values, pairwise close. *)
Definition tracks_agree (tol : Q) (t1 t2 : list Q) : Prop := Forall2 (close tol) t1 t2.

End TestingDiffTsf.

(* ================================================================== *)
(** * Properties of [Base] *)
(* ================================================================== *)

Lemma squaredNorm3_nonneg (v : Vector3) : 0 <= squaredNorm3 v.
Proof. unfold squaredNorm3, dot. destruct v as [a b c]; simpl. nra. Qed.

Lemma squaredNorm33_nonneg (m : Matrix3) : 0 <= squaredNorm33 m.
Proof.
  unfold squaredNorm33.
  pose proof (squaredNorm3_nonneg (r0 m)).
  pose proof (squaredNorm3_nonneg (r1 m)).
  pose proof (squaredNorm3_nonneg (r2 m)). lra.
Qed.

Lemma mini_self (x : Q) : mini x x = x.
Proof. unfold mini. destruct (Qle_bool x x); reflexivity. Qed.

Lemma isApprox33_refl (m : Matrix3) : isApprox33 m m = true.
Proof.
  unfold isApprox33. rewrite mini_self. apply Qle_bool_iff.
  pose proof (squaredNorm33_nonneg m) as Hm.
  assert (Hz : squaredNorm33 (sub33 m m) == 0).
  { destruct m as [[a b c] [d e f] [g h i]].
    unfold squaredNorm33, squaredNorm3, dot, sub33, sub; simpl. ring. }
  rewrite Hz. unfold dummy_precision. nra.
Qed.

Lemma block33_homogeneous (t : Transform) : block33 (homogeneous t) = linear t.
Proof. destruct t as [[[a b c] [d e f] [g h i]] [x y z]]. reflexivity. Qed.

Lemma block34_homogeneous (t : Transform) : block34 (homogeneous t) = t.
Proof. destruct t as [[[a b c] [d e f] [g h i]] [x y z]]. reflexivity. Qed.

(** The bottom row of the homogeneous form is [0 0 0 1], so its
    determinant is that of the linear part. *)
Lemma determinant_homogeneous (t : Transform) :
  determinant (homogeneous t) == determinant3 (linear t).
Proof.
  destruct t as [[[a b c] [d e f] [g h i]] [x y z]].
  unfold determinant, bruteforce_det4_helper, determinant3, cofactor, coeff, row4,
    homogeneous; simpl. ring.
Qed.

(** [Transform::inverse()] is a two-sided inverse whenever the linear part
    is regular. *)
Ltac unfold_matrix_ops :=
  cbv -[Qplus Qmult Qopp Qminus Qinv Qdiv Qeq Qle Qlt].

(** [D * k == 1] closes an entry of [M * M^-1] once [/ D] is named [k]. *)
Ltac by_inverse Hk x y z :=
  match type of Hk with
  | ?D * ?k == 1 =>
      first [ ring
            | rewrite <- Hk; ring
            | transitivity (x * (1 - D * k)); [ring | rewrite Hk; ring]
            | transitivity (y * (1 - D * k)); [ring | rewrite Hk; ring]
            | transitivity (z * (1 - D * k)); [ring | rewrite Hk; ring] ]
  end.

Lemma determinant3_inv (m : Matrix3) :
  ~ determinant3 m == 0 -> determinant3 m * / determinant3 m == 1.
Proof. apply Qmult_inv_r. Qed.

Lemma inverse_left (t : Transform) :
  ~ determinant3 (linear t) == 0 ->
  Transform_eq (compose (inverse t) t) Transform_Identity.
Proof.
  destruct t as [[[a b c] [d e f] [g h i]] [x y z]].
  intros Hk%determinant3_inv. revert Hk. unfold_matrix_ops.
  match goal with |- context [ / ?D ] => generalize (/ D) end.
  intros k Hk. repeat split; by_inverse Hk x y z.
Qed.

Lemma inverse_right (t : Transform) :
  ~ determinant3 (linear t) == 0 ->
  Transform_eq (compose t (inverse t)) Transform_Identity.
Proof.
  destruct t as [[[a b c] [d e f] [g h i]] [x y z]].
  intros Hk%determinant3_inv. revert Hk. unfold_matrix_ops.
  match goal with |- context [ / ?D ] => generalize (/ D) end.
  intros k Hk. repeat split; by_inverse Hk x y z.
Qed.

Lemma check_Done {A : Type} (c : bool) (e : string) (k : result A) (x : A) :
  and_then (assert c e) (fun _ => k) = Done x -> c = true /\ k = Done x.
Proof. destruct c; simpl; [auto | discriminate]. Qed.

Lemma check_passed {A : Type} (e : string) (k : result A) :
  and_then (assert true e) (fun _ => k) = k.
Proof. reflexivity. Qed.

Lemma Qle_bool_false (x y : Q) : Qle_bool x y = false <-> y < x.
Proof.
  split; intros H.
  - apply Qnot_le_lt. intros Hle. apply Qle_bool_iff in Hle. congruence.
  - destruct (Qle_bool x y) eqn:E; [|reflexivity].
    apply Qle_bool_iff in E. lra.
Qed.

Section HalfSpaceFacts.

Variable sqrt : Matrix4 -> Matrix4.

(** What a completed [compute_halfspace_transformations] has checked and
    stored. *)
Lemma compute_halfspace_transformations_Done (s s' : Base) :
  compute_halfspace_transformations sqrt s = Done s' ->
  0 < determinant (homogeneous (trafo s))
  /\ s' = with_halves s (block34 (sqrt (homogeneous (trafo s))))
                        (inverse (block34 (sqrt (homogeneous (trafo s)))))
  /\ isApprox34 (trafo s') (compose (trafo_half s') (trafo_half s')) = true
  /\ isApprox34 (inverse (trafo s'))
                (compose (trafo_half_inverse s') (trafo_half_inverse s')) = true.
Proof.
  unfold compute_halfspace_transformations. cbv zeta. intros H.
  apply check_Done in H as [_ H].
  apply check_Done in H as [Hdet H].
  apply check_Done in H as [H1 H].
  apply check_Done in H as [H2 H].
  injection H as <-.
  apply negb_true_iff, Qle_bool_false in Hdet.
  repeat split; assumption.
Qed.


Lemma compute_halfspace_transformations_keeps (s s' : Base) :
  compute_halfspace_transformations sqrt s = Done s' ->
  trafo s' = trafo s /\ centre s' = centre s
  /\ number_of_parameters s' = number_of_parameters s.
Proof.
  intros H. apply compute_halfspace_transformations_Done in H.
  destruct H as (_ & -> & _). repeat split.
Qed.

End HalfSpaceFacts.

(** Every mutation finishes with [compute_halfspace_transformations]. *)
Lemma mutate_ends_in_halfspace (sqrt : Matrix4 -> Matrix4) (m : mutation) (s : Base) :
  mutate sqrt m s = compute_halfspace_transformations sqrt (before_halfspace m s).
Proof. destruct m; reflexivity. Qed.

Lemma isApprox34_within_tolerance (a b : Transform) :
  isApprox34 a b = true <-> within_tolerance a b.
Proof. unfold isApprox34, within_tolerance. apply Qle_bool_iff. Qed.

(** C1.  After any of the five mutations ([set_transform], [set_matrix],
    [set_translation], [set_centre], [set_offset]) has completed, the stored
    half transform composed with itself is within tolerance of the stored
    transform, and the stored half-inverse composed with itself is within
    tolerance of the inverse of the stored transform; that inverse is a
    genuine two-sided inverse.  This holds for whatever square-root routine
    is used. *)
Theorem mutate_half_composition
        (sqrt : Matrix4 -> Matrix4) (m : mutation) (s s' : Base) :
  mutate sqrt m s = Done s' ->
  within_tolerance (trafo s') (compose (trafo_half s') (trafo_half s'))
  /\ within_tolerance (inverse (trafo s'))
                      (compose (trafo_half_inverse s') (trafo_half_inverse s'))
  /\ Transform_eq (compose (inverse (trafo s')) (trafo s')) Transform_Identity
  /\ Transform_eq (compose (trafo s') (inverse (trafo s'))) Transform_Identity.
Proof.
  intros H.
  rewrite mutate_ends_in_halfspace in H. rename H into H1.
  pose proof (compute_halfspace_transformations_keeps sqrt _ _ H1) as (Ht & _ & _).
  apply compute_halfspace_transformations_Done in H1.
  destruct H1 as (Hdet & _ & Ha & Hb).
  rewrite <- Ht, determinant_homogeneous in Hdet.
  assert (Hreg : ~ determinant3 (linear (trafo s')) == 0) by lra.
  split; [|split; [|split]].
  - apply isApprox34_within_tolerance, Ha.
  - apply isApprox34_within_tolerance, Hb.
  - apply inverse_left, Hreg.
  - apply inverse_right, Hreg.
Qed.

Lemma mutate_half_composition_witness :
  exists s',
    mutate sqrt_axis_scaling (SetMatrix scaling_4_9_16)
           (with_centre (Base_new 12) centre_123) = Done s'
    /\ within_tolerance (trafo s') (compose (trafo_half s') (trafo_half s'))
    /\ within_tolerance (inverse (trafo s'))
                        (compose (trafo_half_inverse s') (trafo_half_inverse s'))
    /\ Transform_eq (compose (inverse (trafo s')) (trafo s')) Transform_Identity
    /\ Transform_eq (compose (trafo s') (inverse (trafo s'))) Transform_Identity.
Proof.
  eexists. split.
  - vm_compute. reflexivity.
  - apply (mutate_half_composition sqrt_axis_scaling (SetMatrix scaling_4_9_16)
             (with_centre (Base_new 12) centre_123)).
    vm_compute. reflexivity.
Defined.

Lemma compute_offset_rotates_about (s : Base) :
  rotates_about (trafo (compute_offset s))
                (linear (trafo s)) (centre s) (translation (trafo s)).
Proof.
  destruct s as [n [[[a b c] [d e f] [g h i]] [x y z]] hf hi [cx cy cz] w].
  intros [px py pz]. unfold_matrix_ops. repeat split; ring.
Qed.

(** C2, as the code has it.  [set_matrix], [set_translation] and
    [set_centre] first recompute the offset, so that the stored translation
    is [t + centre - M * centre] and the stored transform applies [M] about
    the stored centre, and then recompute the two half transforms.
    [set_transform] stores the 3x4 block it is given as it is (no offset is
    recomputed) and then recomputes the two half transforms. *)
Theorem mutation_offset_then_halfspace
        (sqrt : Matrix4 -> Matrix4) (m : mutation) (s s' : Base) :
  mutate sqrt m s = Done s' ->
  let '(M, t, c) := assigned m s in
  linear (trafo s') = M
  /\ centre s' = c
  /\ translation (trafo s')
     = (if recomputes_offset m then sub (add t c) (mulv M c) else t)
  /\ (recomputes_offset m = true -> rotates_about (trafo s') M c t)
  /\ trafo_half s' = block34 (sqrt (homogeneous (trafo s')))
  /\ trafo_half_inverse s' = inverse (trafo_half s').
Proof.
  rewrite mutate_ends_in_halfspace. intros H.
  apply compute_halfspace_transformations_Done in H.
  destruct H as (_ & -> & _).
  destruct m as [T | mat | trans | centre_in | offset_in];
    cbn [assigned recomputes_offset before_halfspace];
    (repeat (split; [reflexivity |])); (split; [| split; reflexivity]);
    try discriminate; intros _.
  - apply (compute_offset_rotates_about
             (with_trafo s (mkTransform mat (translation (trafo s))))).
  - apply (compute_offset_rotates_about
             (with_trafo s (mkTransform (linear (trafo s)) trans))).
  - apply (compute_offset_rotates_about (with_centre s centre_in)).
Qed.

Lemma mutation_offset_then_halfspace_witness :
  exists s',
    mutate sqrt_axis_scaling (SetMatrix scaling_4_9_16) centred_123 = Done s'
    /\ (let '(M, t, c) := assigned (SetMatrix scaling_4_9_16) centred_123 in
        linear (trafo s') = M
        /\ centre s' = c
        /\ translation (trafo s')
           = (if recomputes_offset (SetMatrix scaling_4_9_16)
              then sub (add t c) (mulv M c) else t)
        /\ (recomputes_offset (SetMatrix scaling_4_9_16) = true ->
            rotates_about (trafo s') M c t)
        /\ trafo_half s' = block34 (sqrt_axis_scaling (homogeneous (trafo s')))
        /\ trafo_half_inverse s' = inverse (trafo_half s')).
Proof.
  eexists. split.
  - vm_compute. reflexivity.
  - apply (mutation_offset_then_halfspace sqrt_axis_scaling
             (SetMatrix scaling_4_9_16) centred_123).
    vm_compute. reflexivity.
Defined.

(** C2 as stated fails for [set_transform].  From a fresh transform,
    [set_centre (1, 2, 3)] and then [set_transform] with the scaling
    diag (4, 9, 16) and no translation: the stored translation is the given
    (0, 0, 0), not [t + centre - M * centre] = (-3, -16, -45). *)
Lemma set_transform_keeps_translation :
  set_centre sqrt_axis_scaling centre_123 (Base_new 12) = Done centred_123
  /\ exists s',
       set_transform sqrt_axis_scaling
                     (mkTransform scaling_4_9_16 Vector3_Zero) centred_123 = Done s'
       /\ translation (trafo s') = Vector3_Zero
       /\ ~ Vector3_eq (translation (trafo s'))
                       (sub (add Vector3_Zero (centre centred_123))
                            (mulv scaling_4_9_16 (centre centred_123))).
Proof.
  split; [vm_compute; reflexivity |].
  eexists. split; [vm_compute; reflexivity |].
  split; [reflexivity |].
  vm_compute. intros (H & _). discriminate H.
Qed.



(** C10.  A freshly constructed transform, for any number of parameters,
    stores the identity as its transform, half transform and half-inverse
    transform and the zero vector as its centre; [get_transform] returns the
    identity; and half composed with half is the transform, half-inverse
    composed with half-inverse is its inverse, exactly. *)
Theorem Base_new_identity (n : nat) :
  trafo (Base_new n) = Transform_Identity
  /\ trafo_half (Base_new n) = Transform_Identity
  /\ trafo_half_inverse (Base_new n) = Transform_Identity
  /\ centre (Base_new n) = Vector3_Zero
  /\ size (Base_new n) = n
  /\ get_transform (Base_new n) = Transform_Identity
  /\ compose (trafo_half (Base_new n)) (trafo_half (Base_new n)) = trafo (Base_new n)
  /\ compose (trafo_half_inverse (Base_new n)) (trafo_half_inverse (Base_new n))
     = inverse (trafo (Base_new n))
  /\ compose (inverse (trafo (Base_new n))) (trafo (Base_new n)) = Transform_Identity
  /\ (forall p, Vector3_eq (transform (Base_new n) p) p).
Proof.
  repeat (split; [reflexivity |]).
  intros [x y z]. unfold_matrix_ops. repeat split; ring.
Qed.

(* ================================================================== *)
(** * The default [robust_estimate] *)
(* ================================================================== *)

Section RobustEstimateFacts.

Variables ParamType VectorType : Type.
Variable plus : VectorType -> VectorType -> VectorType.
Variable zero : VectorType.

Hypothesis plus_assoc : forall a b c, plus (plus a b) c = plus a (plus b c).
Hypothesis plus_zero_r : forall a, plus a zero = a.

Lemma fold_left_plus_sum (grad_estimates : list VectorType) (gradient : VectorType) :
  fold_left plus grad_estimates gradient
  = plus gradient (sum_estimates VectorType plus zero grad_estimates).
Proof.
  revert gradient.
  induction grad_estimates as [| e rest IH]; intros gradient; simpl.
  - symmetry. apply plus_zero_r.
  - rewrite IH. apply plus_assoc.
Qed.

(** C4.  For every list of gradient estimates, the default
    [robust_estimate] leaves in [gradient] the incoming gradient plus the
    unweighted sum of all the estimates, ignores [params] and
    [parameter_vector], and returns [true]. *)
Theorem robust_estimate_is_plain_sum
        (gradient : VectorType) (grad_estimates : list VectorType)
        (params : ParamType) (parameter_vector : VectorType) :
  robust_estimate ParamType VectorType plus
                  gradient grad_estimates params parameter_vector
  = (plus gradient (sum_estimates VectorType plus zero grad_estimates), true).
Proof. unfold robust_estimate. rewrite fold_left_plus_sum. reflexivity. Qed.

End RobustEstimateFacts.

(** Rational addition is associative and has [0] as right unit up to
    Leibniz equality, so 3-vectors of rationals are an instance. *)
Lemma Qplus_assoc_eq (a b c : Q) : (a + b) + c = a + (b + c).
Proof.
  destruct a as [an ad], b as [bn bd], c as [cn cd].
  unfold Qplus; simpl. f_equal.
  - rewrite !Pos2Z.inj_mul. ring.
  - symmetry. apply Pos.mul_assoc.
Qed.

Lemma Qplus_0_r_eq (a : Q) : a + 0 = a.
Proof.
  destruct a as [an ad]. unfold Qplus; simpl.
  rewrite Z.mul_1_r, Z.add_0_r, Pos.mul_1_r. reflexivity.
Qed.

Lemma add_assoc_eq (a b c : Vector3) : add (add a b) c = add a (add b c).
Proof. unfold add; simpl. rewrite !Qplus_assoc_eq. reflexivity. Qed.

Lemma add_Zero_r_eq (a : Vector3) : add a Vector3_Zero = a.
Proof. destruct a. unfold add; simpl. rewrite !Qplus_0_r_eq. reflexivity. Qed.

Lemma robust_estimate_is_plain_sum_witness :
  robust_estimate unit Vector3 add
                  (mkVector3 1 0 0) [mkVector3 0 2 0; mkVector3 0 0 3; mkVector3 1 1 1]
                  tt Vector3_Zero
  = (add (mkVector3 1 0 0)
         (sum_estimates Vector3 add Vector3_Zero
                        [mkVector3 0 2 0; mkVector3 0 0 3; mkVector3 1 1 1]),
     true).
Proof.
  apply (robust_estimate_is_plain_sum unit Vector3 add Vector3_Zero
           add_assoc_eq add_Zero_r_eq).
Defined.

(* ================================================================== *)
(** * Properties of [run] *)
(* ================================================================== *)

Module RunFacts.

Import Mrregister.

Section Monad.

Context {A B : Type}.

Lemma bind_Return (m : M A) (k : A -> M B) (log : list Event) (b : B) :
  bind m k = (log, Return b) ->
  exists a log1 log2,
    m = (log1, Return a) /\ k a = (log2, Return b) /\ log = log1 ++ log2.
Proof.
  destruct m as [log1 [a | msg]]; simpl; [| discriminate].
  destruct (k a) as [log2 r] eqn:E. intros H. injection H as <- ->.
  exists a, log1, log2. auto.
Qed.

Lemma bind_returned (m : M A) (k : A -> M B) (b : B) :
  snd (bind m k) = Return b ->
  exists a, snd m = Return a /\ snd (k a) = Return b
            /\ fst (bind m k) = fst m ++ fst (k a).
Proof.
  destruct m as [log1 [a | msg]]; simpl; [| discriminate].
  destruct (k a) as [log2 r] eqn:E. simpl. intros ->.
  exists a. rewrite E. auto.
Qed.

Lemma bind_thrown (m : M A) (k : A -> M B) (msg : string) :
  snd m = Exception msg -> bind m k = (fst m, Exception msg).
Proof. destruct m as [log [a | msg']]; simpl; [discriminate |]. now intros [= ->]. Qed.

Lemma bind_fails_l (m : M A) (k : A -> M B) : fails m -> fails (bind m k).
Proof. intros [msg H]. exists msg. rewrite (bind_thrown _ _ _ H). reflexivity. Qed.

Lemma bind_fails_r (m : M A) (k : A -> M B) :
  (forall a, snd m = Return a -> fails (k a)) -> fails (bind m k).
Proof.
  destruct m as [log [a | msg]]; simpl; intros H.
  - destruct (H a eq_refl) as [msg E]. exists msg.
    destruct (k a) as [log2 r]. exact E.
  - exists msg. reflexivity.
Qed.

Lemma log_all_bind (P : Event -> bool) (m : M A) (k : A -> M B) :
  log_all P m -> (forall a, snd m = Return a -> log_all P (k a)) ->
  log_all P (bind m k).
Proof.
  unfold log_all. destruct m as [log [a | msg]]; simpl; intros Hm Hk; [| exact Hm].
  specialize (Hk a eq_refl). destruct (k a) as [log2 r]. simpl in *.
  rewrite forallb_app, Hm, Hk. reflexivity.
Qed.

(** A failed computation passes its log on unchanged. *)
Lemma log_all_bind_failed (P : Event -> bool) (m : M A) (k : A -> M B) :
  fails m -> log_all P m -> log_all P (bind m k).
Proof. intros [msg H] Hm. unfold log_all. rewrite (bind_thrown _ _ _ H). exact Hm. Qed.

End Monad.

Lemma log_all_ret {A : Type} (P : Event -> bool) (a : A) : log_all P (ret a).
Proof. reflexivity. Qed.

Lemma log_all_throw {A : Type} (P : Event -> bool) (msg : string) :
  log_all P (@throw A msg).
Proof. reflexivity. Qed.

Lemma log_all_call (P : Event -> bool) (e : Event) : P e = true -> log_all P (call e).
Proof. unfold log_all; simpl. intros ->. reflexivity. Qed.

Lemma log_all_when (P : Event -> bool) (b : bool) (body : M unit) :
  log_all P body -> log_all P (when b body).
Proof. intros H. destruct b; [exact H | reflexivity]. Qed.

Lemma log_all_with_option {A : Type} (P : Event -> bool) (o : option A) (body : A -> M unit) :
  (forall v, log_all P (body v)) -> log_all P (with_option o body).
Proof. intros H. destruct o; [apply H | reflexivity]. Qed.

(** Decompose a goal [log_all P m] along the structure of [m]. *)
Ltac log_all_step :=
  first
    [ apply log_all_ret
    | apply log_all_throw
    | apply log_all_call; reflexivity
    | apply log_all_when
    | apply log_all_with_option; intros
    | apply log_all_bind; [| intros ? _]
    | match goal with
      | |- log_all _ (if ?b then _ else _) => destruct b
      | |- log_all _ (match ?x with _ => _ end) => destruct x
      end ].

Ltac log_all_tac := repeat log_all_step.

Section Phases.

Variables LforN NforL : Z -> Z.
Variable cl : CommandLine.

Lemma set_init_type_choice_prepares (r : LinearRegistration) (choice : Z) :
  log_all is_preparation (set_init_type_choice r choice).
Proof. unfold set_init_type_choice. log_all_tac. Qed.

Lemma load_images_prepares : log_all is_preparation (load_images LforN NforL cl).
Proof. unfold load_images. log_all_tac. Qed.

Lemma rigid_options_prepares (do_rigid : bool) :
  log_all is_preparation (rigid_options cl do_rigid).
Proof.
  unfold rigid_options. log_all_tac; apply set_init_type_choice_prepares.
Qed.

Lemma affine_options_prepares (do_rigid do_affine init_rigid_set : bool) :
  log_all is_preparation (affine_options cl do_rigid do_affine init_rigid_set).
Proof.
  unfold affine_options. log_all_tac; apply set_init_type_choice_prepares.
Qed.

Lemma syn_options_prepares (do_rigid do_affine do_syn init_rigid_set init_affine_set : bool) :
  log_all is_preparation
          (syn_options cl do_rigid do_affine do_syn init_rigid_set init_affine_set).
Proof. unfold syn_options. log_all_tac. Qed.

(** No optimisation and no resampling is started before the command line
    has been read to its end. *)
Lemma read_command_line_prepares :
  log_all is_preparation (read_command_line LforN NforL cl).
Proof.
  unfold read_command_line.
  apply log_all_bind; [apply load_images_prepares | intros do_reorientation _].
  apply log_all_bind; [unfold open_outputs; log_all_tac | intros _ _].
  destruct (select_stages cl) as [[do_rigid do_affine] do_syn].
  apply log_all_bind; [unfold open_masks; log_all_tac | intros _ _].
  apply log_all_bind; [apply rigid_options_prepares | intros [i rm] _].
  apply log_all_bind; [apply affine_options_prepares | intros [[ia am] ae] _].
  apply log_all_bind; [apply syn_options_prepares | intros [dr da] _].
  apply log_all_ret.
Qed.

End Phases.


Lemma log_all_weaken {A : Type} (P Q : Event -> bool) (m : M A) :
  (forall e, P e = true -> Q e = true) -> log_all P m -> log_all Q m.
Proof.
  unfold log_all. intros HPQ H. rewrite forallb_forall in *. auto.
Qed.

(** Walk along the blocks of an option section up to one that throws. *)
Ltac find_throw :=
  first [ solve [apply bind_fails_l; eexists; reflexivity]
        | solve [eexists; reflexivity]
        | apply bind_fails_r; intros ? _; find_throw ].

Section Rejections.

Variables LforN NforL : Z -> Z.
Variable cl : CommandLine.

Lemma present_Some {A : Type} (o : option A) : present o = true -> exists v, o = Some v.
Proof. destruct o; [eauto | discriminate]. Qed.

Lemma rigid_options_fails (o : StageOption) :
  stage_of o = Rigid -> guarded o = true -> supplied cl o = true ->
  fails (rigid_options cl false).
Proof.
  intros Hst Hg Hs. unfold rigid_options.
  destruct o; try discriminate; apply present_Some in Hs as [v Hs];
    rewrite Hs; find_throw.
Qed.

Lemma affine_options_fails (o : StageOption) (do_rigid init_rigid_set : bool) :
  stage_of o = Affine -> guarded o = true -> supplied cl o = true ->
  fails (affine_options cl do_rigid false init_rigid_set).
Proof.
  intros Hst Hg Hs. unfold affine_options.
  destruct o; try discriminate; apply present_Some in Hs as [v Hs];
    rewrite Hs; find_throw.
Qed.

Lemma syn_options_fails (o : StageOption) (do_rigid do_affine i_r i_a : bool) :
  stage_of o = SyN -> guarded o = true -> supplied cl o = true ->
  fails (syn_options cl do_rigid do_affine false i_r i_a).
Proof.
  intros Hst Hg Hs. unfold syn_options.
  destruct o; try discriminate; apply present_Some in Hs as [v Hs];
    rewrite Hs; find_throw.
Qed.

(** A resumed bundle that is not 5-D, or an iteration list with more than
    one level next to a resumed bundle, stops [syn_options]. *)
Lemma syn_options_rejects_bundle (w : WarpImage)
      (do_rigid do_affine do_syn i_r i_a : bool) :
  syn_init cl = Some w ->
  warp_ndim w <> 5%nat
  \/ (exists l, syn_niter cl = Some l /\ (1 < List.length l)%nat) ->
  fails (syn_options cl do_rigid do_affine do_syn i_r i_a).
Proof.
  intros Hw H. unfold syn_options. rewrite Hw.
  destruct do_syn; [| find_throw].
  destruct H as [Hnd | (l & Hl & Hlen)].
  - apply Nat.eqb_neq in Hnd. rewrite Hnd. find_throw.
  - apply Nat.ltb_lt in Hlen. rewrite Hl.
    cbn [present andb negb when with_option]. rewrite Hlen. find_throw.
Qed.

(** A failure of one of the three option sections is a failure of
    [read_command_line]. *)
Lemma read_command_line_fails :
  (forall do_rigid do_affine do_syn,
      select_stages cl = (do_rigid, do_affine, do_syn) ->
      fails (rigid_options cl do_rigid)
      \/ (forall i_r, fails (affine_options cl do_rigid do_affine i_r))
      \/ (forall i_r i_a,
             fails (syn_options cl do_rigid do_affine do_syn i_r i_a))) ->
  fails (read_command_line LforN NforL cl).
Proof.
  intros H. unfold read_command_line.
  apply bind_fails_r; intros do_reorientation _.
  apply bind_fails_r; intros _ _.
  destruct (select_stages cl) as [[do_rigid do_affine] do_syn].
  specialize (H _ _ _ eq_refl).
  apply bind_fails_r; intros _ _.
  destruct H as [H | [H | H]].
  - apply bind_fails_l, H.
  - apply bind_fails_r; intros [i rm] _. apply bind_fails_l, H.
  - apply bind_fails_r; intros [i rm] _.
    apply bind_fails_r; intros [[ia am] ae] _. apply bind_fails_l, H.
Qed.

(** When the command line is rejected, nothing but preparation has
    happened. *)
Lemma rejected_before_registration :
  fails (read_command_line LforN NforL cl) ->
  fails (run LforN NforL cl) /\ log_all is_preparation (run LforN NforL cl).
Proof.
  intros H. unfold run. split.
  - apply bind_fails_l, H.
  - apply log_all_bind_failed; [exact H | apply read_command_line_prepares].
Qed.

(** C6.  With [-syn_init], a bundle image that is not 5-dimensional and an
    iteration-count list of more than one level each end the run with an
    exception, and by then no optimisation and no resampling has been
    started. *)
Theorem resumed_bundle_checked (w : WarpImage) :
  syn_init cl = Some w ->
  warp_ndim w <> 5%nat
  \/ (exists l, syn_niter cl = Some l /\ (1 < List.length l)%nat) ->
  fails (run LforN NforL cl) /\ log_all is_preparation (run LforN NforL cl).
Proof.
  intros Hw H. apply rejected_before_registration, read_command_line_fails.
  intros do_rigid do_affine do_syn _. right; right. intros i_r i_a.
  apply (syn_options_rejects_bundle w); assumption.
Qed.

(** X26.  Supplying one of [-rigid], [-rigid_scale], [-rigid_niter],
    [-affine], [-affine_1tomidway], [-affine_2tomidway], [-affine_scale],
    [-affine_repetitions], [-affine_loop_density], [-affine_niter],
    [-syn_warp], [-syn_init], [-syn_scale], [-syn_niter],
    [-syn_update_smooth], [-syn_disp_smooth], [-syn_grad_step] when
    [-type] does not select its stage ends the run with an exception
    before any optimisation or resampling is started. *)
Theorem guarded_option_needs_its_stage (o : StageOption) :
  guarded o = true ->
  supplied cl o = true ->
  selected cl (stage_of o) = false ->
  fails (run LforN NforL cl) /\ log_all is_preparation (run LforN NforL cl).
Proof.
  intros Hg Hs Hsel. apply rejected_before_registration, read_command_line_fails.
  intros do_rigid do_affine do_syn E. unfold selected in Hsel. rewrite E in Hsel.
  destruct (stage_of o) eqn:Hst; subst.
  - left. apply (rigid_options_fails o); assumption.
  - right; left. intros i_r. apply (affine_options_fails o); assumption.
  - right; right. intros i_r i_a. apply (syn_options_fails o); assumption.
Qed.

End Rejections.


(** Peel a computation that returned: the value returned by the last
    [ret] is the one returned by the whole. *)
Ltac returned H :=
  repeat (let a := fresh "a" in
          apply bind_returned in H as (a & _ & H & _));
  try (injection H as H).

Section Settings.

Variables LforN NforL : Z -> Z.
Variable cl : CommandLine.

Lemma rigid_options_returned (do_rigid : bool) r :
  snd (rigid_options cl do_rigid) = Return r ->
  r = (present (rigid_init cl), metric_choice (rigid_metric cl)).
Proof. unfold rigid_options. intros H. returned H. now subst. Qed.

Lemma affine_options_returned (do_rigid do_affine i_r : bool) a :
  snd (affine_options cl do_rigid do_affine i_r) = Return a ->
  a = (present (affine_init cl), metric_choice (affine_metric cl),
       estimator_choice (affine_robust_estimator cl)).
Proof. unfold affine_options. intros H. returned H. now subst. Qed.

Lemma syn_options_returned (do_rigid do_affine do_syn i_r i_a : bool) flags :
  snd (syn_options cl do_rigid do_affine do_syn i_r i_a) = Return flags ->
  flags = (if present (syn_init cl) then (false, false) else (do_rigid, do_affine))
  /\ (present (syn_init cl) = true -> do_syn = true).
Proof.
  unfold syn_options. intros H.
  apply bind_returned in H as (? & _ & H & _).
  apply bind_returned in H as (flags0 & H0 & H & _).
  returned H. subst flags0.
  destruct (syn_init cl) as [w |]; simpl.
  - destruct do_syn; [| discriminate H0]. returned H0. now subst.
  - injection H0 as <-. split; [reflexivity | discriminate].
Qed.

(** The flags and metrics with which a command line that was accepted
    enters the registration stages. *)
Lemma read_command_line_returned (s : Settings) :
  snd (read_command_line LforN NforL cl) = Return s ->
  do_rigid s = executed cl Rigid
  /\ do_affine s = executed cl Affine
  /\ do_syn s = executed cl SyN
  /\ rigid_metric_ s = metric_choice (rigid_metric cl)
  /\ affine_metric_ s = metric_choice (affine_metric cl)
  /\ affine_estimator_ s = estimator_choice (affine_robust_estimator cl)
  /\ (present (syn_init cl) = true -> do_syn s = true).
Proof.
  unfold read_command_line, executed, selected. intros H.
  apply bind_returned in H as (dre & _ & H & _).
  apply bind_returned in H as (? & _ & H & _).
  destruct (select_stages cl) as [[dr da] ds].
  apply bind_returned in H as (? & _ & H & _).
  apply bind_returned in H as ([i rm] & Hr & H & _).
  apply bind_returned in H as ([[ia am] ae] & Ha & H & _).
  apply bind_returned in H as ([dr' da'] & Hs & H & _).
  apply rigid_options_returned in Hr. apply affine_options_returned in Ha.
  apply syn_options_returned in Hs as [Hs Hsyn].
  injection Hr as -> ->. injection Ha as -> -> ->.
  injection H as <-. simpl.
  destruct (present (syn_init cl)); injection Hs as -> ->;
    rewrite ?andb_true_r, ?andb_false_r; repeat split; auto.
Qed.

End Settings.


Lemma returns_ret {A : Type} (a : A) : returns (ret a).
Proof. exists a. reflexivity. Qed.

Lemma returns_call (e : Event) : returns (call e).
Proof. exists tt. reflexivity. Qed.

Lemma returns_bind {A B : Type} (m : M A) (k : A -> M B) :
  returns m -> (forall a, returns (k a)) -> returns (bind m k).
Proof.
  intros [a Ha] Hk. destruct m as [log [a' | msg]]; simpl in *; [| discriminate].
  destruct (Hk a') as [b Hb]. exists b. destruct (k a'). exact Hb.
Qed.

Lemma returns_when (b : bool) (body : M unit) : returns body -> returns (when b body).
Proof. intros H. destruct b; [exact H | apply returns_ret]. Qed.

Lemma returns_with_option {A : Type} (o : option A) (body : A -> M unit) :
  (forall v, returns (body v)) -> returns (with_option o body).
Proof. intros H. destruct o; [apply H | apply returns_ret]. Qed.

Ltac returns_tac :=
  repeat first
    [ apply returns_ret
    | apply returns_call
    | apply returns_when
    | apply returns_with_option; intros
    | apply returns_bind; [| intros]
    | match goal with
      | |- returns (if ?b then _ else _) => destruct b
      | |- returns (match ?x with _ => _ end) => destruct x
      end ].

(** Find a call in the log of a computation that returned,
    [H : snd m = Return _]. *)
Ltac find_call H :=
  cbn [when with_option] in H |- *;
  first
    [ solve [simpl; auto]
    | let Hm := fresh "Hm" in
      let Hl := fresh "Hl" in
      apply bind_returned in H as (? & Hm & H & Hl); rewrite Hl; apply in_or_app;
      first [ left; solve [find_call Hm] | right; solve [find_call H] ] ].

Section Stages.

Variables LforN NforL : Z -> Z.
Variable cl : CommandLine.

Lemma is_preparation_before_stage (r : LinearRegistration) (e : Event) :
  is_preparation e = true -> before_stage r e = true.
Proof.
  unfold before_stage. intros H.
  destruct e; try exact H.
  repeat match goal with r' : LinearRegistration |- _ => destruct r' end;
    first [exact H | reflexivity].
Qed.

Lemma run_rigid_ncc_4D :
  image_ndim cl = 4%nat ->
  run_rigid cl true Registration.NCC
  = ([CONSOLE "running rigid registration"],
     Exception "cross correlation metric not implemented for data with more than 3 dimensions").
Proof. intros H. unfold run_rigid. rewrite H. reflexivity. Qed.

Lemma run_affine_ncc_4D (do_rigid do_reorientation : bool) ae :
  image_ndim cl = 4%nat ->
  fails (run_affine cl do_rigid true do_reorientation Registration.NCC ae)
  /\ log_all is_preparation
             (run_affine cl do_rigid true do_reorientation Registration.NCC ae).
Proof.
  intros H. unfold run_affine. rewrite H.
  destruct do_rigid, do_reorientation; split; solve [eexists; reflexivity | reflexivity].
Qed.

Lemma run_rigid_before_affine (do_rigid : bool) rm :
  log_all (before_stage affine_registration) (run_rigid cl do_rigid rm).
Proof. unfold run_rigid. log_all_tac. Qed.

(** C5, as the code has it.  When the images are 4-D and a linear stage
    that is executed (selected by [-type], not superseded by [-syn_init])
    has the cross-correlation metric, the run ends with an exception
    before that stage's optimisation, the SyN optimisation or any
    resampling is started; for the affine stage the rigid optimisation may
    already have run. *)
Theorem ncc_on_4D_rejected (r : LinearRegistration) :
  ndim (im2_header cl) = 4%nat ->
  executed cl (linear_stage r) = true ->
  selected_metric cl r = Registration.NCC ->
  fails (run LforN NforL cl) /\ log_all (before_stage r) (run LforN NforL cl).
Proof.
  intros Hnd Hex Hm.
  destruct (snd (read_command_line LforN NforL cl)) as [s | msg] eqn:E.
  - pose proof (read_command_line_returned LforN NforL cl s E)
      as (Hdr & Hda & _ & Hrm & Ham & _).
    assert (Hprep : log_all (before_stage r) (read_command_line LforN NforL cl)).
    { apply (log_all_weaken is_preparation);
        [apply is_preparation_before_stage | apply read_command_line_prepares]. }
    assert (Hreg : fails (register cl s) /\ log_all (before_stage r) (register cl s)).
    { unfold register. destruct r; cbn [linear_stage selected_metric] in Hex, Hm.
      - rewrite Hdr, Hex, Hrm, Hm, run_rigid_ncc_4D by exact Hnd.
        split; [eexists; reflexivity | reflexivity].
      - rewrite Hda, Hex, Ham, Hm.
        destruct (run_affine_ncc_4D (do_rigid s) (do_reorientation s)
                    (affine_estimator_ s) Hnd) as [Hf Hl].
        split.
        + apply bind_fails_r; intros _ _. apply bind_fails_l, Hf.
        + apply log_all_bind; [apply run_rigid_before_affine | intros _ _].
          apply log_all_bind_failed; [exact Hf |].
          apply (log_all_weaken is_preparation);
            [apply is_preparation_before_stage | exact Hl]. }
    unfold run. split.
    + apply bind_fails_r. intros a Ha. rewrite E in Ha. injection Ha as <-. apply Hreg.
    + apply log_all_bind; [exact Hprep |].
      intros a Ha. rewrite E in Ha. injection Ha as <-. apply Hreg.
  - assert (Hf : fails (read_command_line LforN NforL cl)) by (exists msg; exact E).
    destruct (rejected_before_registration LforN NforL cl Hf) as [H1 H2].
    split; [exact H1 |].
    apply (log_all_weaken is_preparation);
      [apply is_preparation_before_stage | exact H2].
Qed.

End Stages.


Section Resumed.

Variables LforN NforL : Z -> Z.
Variable cl : CommandLine.




End Resumed.






Section Seeding.

Variables LforN NforL : Z -> Z.
Variable cl : CommandLine.



End Seeding.


Section Order.

Variables LforN NforL : Z -> Z.
Variable cl : CommandLine.


Lemma set_init_type_choice_all (P : Event -> bool) (r : LinearRegistration) (c : Z) :
  (forall i, P (set_init_type r i) = true) -> log_all P (set_init_type_choice r c).
Proof.
  intros H. unfold set_init_type_choice.
  repeat match goal with
         | |- log_all _ (match ?x with _ => _ end) => destruct x
         end;
    first [apply log_all_ret | apply log_all_call, H].
Qed.






End Order.

(** *** The theorems at concrete command lines *)

Lemma ncc_on_4D_rejected_witness :
  fails (run LforN_even NforL_even cl_rigid_ncc_4D)
  /\ log_all (before_stage rigid_registration) (run LforN_even NforL_even cl_rigid_ncc_4D).
Proof.
  apply (ncc_on_4D_rejected LforN_even NforL_even cl_rigid_ncc_4D rigid_registration);
    reflexivity.
Defined.

(** C5 as stated fails in two ways.  With [-type rigid_affine] and
    [-affine_metric ncc] on 4-D images the run does end with the exception,
    but only after the rigid optimisation has run.  With [-type affine] and
    [-rigid_metric ncc] on 4-D images the rigid stage is not executed and
    the run completes without any exception. *)
Lemma ncc_on_4D_not_before_all_optimisation :
  (ndim (im2_header cl_rigid_affine_ncc_4D) = 4%nat
   /\ selected_metric cl_rigid_affine_ncc_4D affine_registration = Registration.NCC
   /\ snd (run LforN_even NforL_even cl_rigid_affine_ncc_4D) = Exception ncc_4D_message
   /\ In (run_masked rigid_registration Registration.MeanSquared4D rigid_transform)
         (fst (run LforN_even NforL_even cl_rigid_affine_ncc_4D))
   /\ ~ log_all is_preparation (run LforN_even NforL_even cl_rigid_affine_ncc_4D))
  /\ (ndim (im2_header cl_affine_rigid_ncc_4D) = 4%nat
      /\ selected_metric cl_affine_rigid_ncc_4D rigid_registration = Registration.NCC
      /\ snd (run LforN_even NforL_even cl_affine_rigid_ncc_4D) = Return tt
      /\ ~ fails (run LforN_even NforL_even cl_affine_rigid_ncc_4D)).
Proof.
  split; repeat (split; [reflexivity |]).
  - split; [vm_compute; auto 10 |]. unfold log_all. vm_compute. discriminate.
  - intros [msg H]. vm_compute in H. discriminate H.
Qed.

Lemma resumed_bundle_checked_witness :
  (fails (run LforN_even NforL_even cl_syn_init_4D_bundle)
   /\ log_all is_preparation (run LforN_even NforL_even cl_syn_init_4D_bundle))
  /\ (fails (run LforN_even NforL_even cl_syn_init_two_levels)
      /\ log_all is_preparation (run LforN_even NforL_even cl_syn_init_two_levels)).
Proof.
  split.
  - apply (resumed_bundle_checked LforN_even NforL_even cl_syn_init_4D_bundle
             (mkWarpImage "warps.mif" 4)); [reflexivity |].
    left. simpl. discriminate.
  - apply (resumed_bundle_checked LforN_even NforL_even cl_syn_init_two_levels
             (mkWarpImage "warps.mif" 5)); [reflexivity |].
    right. exists [10; 20]%Z. split; [reflexivity | simpl; lia].
Defined.


Lemma guarded_option_needs_its_stage_witness :
  fails (run LforN_even NforL_even cl_rigid_with_affine_repetitions)
  /\ log_all is_preparation (run LforN_even NforL_even cl_rigid_with_affine_repetitions).
Proof.
  apply (guarded_option_needs_its_stage LforN_even NforL_even
           cl_rigid_with_affine_repetitions opt_affine_repetitions); reflexivity.
Defined.

(** C8, at the failing input [-type rigid -affine_metric ncc].  The
    option belongs to the affine stage, which [-type rigid] does not
    select; the blocks of its sibling options ([-affine_scale],
    [-affine_repetitions], [-affine_niter], ...) throw in that situation,
    but the block of [-affine_metric] has no such test: the option is
    ignored, the rigid stage runs, and [run] throws nothing. *)
Lemma affine_metric_without_affine_stage :
  supplied cl_rigid_with_affine_metric opt_affine_metric = true
  /\ selected cl_rigid_with_affine_metric (stage_of opt_affine_metric) = false
  /\ snd (run LforN_even NforL_even cl_rigid_with_affine_metric) = Return tt
  /\ In (run_masked rigid_registration Registration.MeanSquared rigid_transform)
        (fst (run LforN_even NforL_even cl_rigid_with_affine_metric))
  /\ ~ fails (run LforN_even NforL_even cl_rigid_with_affine_metric).
Proof.
  repeat (split; [reflexivity |]).
  split; [vm_compute; auto 10 |].
  intros [msg H]. vm_compute in H. discriminate H.
Qed.


End RunFacts.

(* ================================================================== *)
(** * Further properties of [Base] *)
(* ================================================================== *)

Lemma mini_nonneg (x y : Q) : 0 <= x -> 0 <= y -> 0 <= mini x y.
Proof. intros Hx Hy. unfold mini. destruct (Qle_bool x y); assumption. Qed.

Lemma squaredNorm34_nonneg (t : Transform) : 0 <= squaredNorm34 t.
Proof.
  unfold squaredNorm34.
  pose proof (squaredNorm33_nonneg (linear t)).
  pose proof (squaredNorm3_nonneg (translation t)). lra.
Qed.

Ltac destruct_transforms :=
  repeat match goal with
         | t : Transform |- _ => destruct t as [[[? ? ?] [? ? ?] [? ? ?]] [? ? ?]]
         | m : Matrix3 |- _ => destruct m as [[? ? ?] [? ? ?] [? ? ?]]
         | v : Vector3 |- _ => destruct v as [? ? ?]
         end.

Ltac rewrite_all_eq :=
  repeat match goal with
         | H : _ /\ _ |- _ => destruct H
         | H : ?x == _ |- _ => rewrite H; clear H
         end.

Lemma Transform_eq_refl (a : Transform) : Transform_eq a a.
Proof. repeat split; reflexivity. Qed.

Lemma Transform_eq_sym (a b : Transform) : Transform_eq a b -> Transform_eq b a.
Proof.
  unfold Transform_eq, Matrix3_eq, Vector3_eq. intros H.
  repeat match goal with H : _ /\ _ |- _ => destruct H end.
  repeat split; symmetry; assumption.
Qed.

Lemma Transform_eq_trans (a b c : Transform) :
  Transform_eq a b -> Transform_eq b c -> Transform_eq a c.
Proof.
  unfold Transform_eq, Matrix3_eq, Vector3_eq. intros H1 H2.
  repeat match goal with H : _ /\ _ |- _ => destruct H end.
  repeat split; etransitivity; eassumption.
Qed.

Lemma compose_Proper (a a' b b' : Transform) :
  Transform_eq a a' -> Transform_eq b b' -> Transform_eq (compose a b) (compose a' b').
Proof.
  destruct_transforms. unfold_matrix_ops. intros Ha Hb.
  repeat match goal with H : _ /\ _ |- _ => destruct H end.
  repeat split;
    repeat match goal with H : ?x == _ |- _ => rewrite H; clear H end; reflexivity.
Qed.

Lemma compose_assoc (a b c : Transform) :
  Transform_eq (compose (compose a b) c) (compose a (compose b c)).
Proof. destruct_transforms. unfold_matrix_ops. repeat split; ring. Qed.

Lemma compose_Identity_l (a : Transform) : Transform_eq (compose Transform_Identity a) a.
Proof. destruct_transforms. unfold_matrix_ops. repeat split; ring. Qed.

Lemma compose_Identity_r (a : Transform) : Transform_eq (compose a Transform_Identity) a.
Proof. destruct_transforms. unfold_matrix_ops. repeat split; ring. Qed.

Lemma determinant3_mulm (a b : Matrix3) :
  determinant3 (mulm a b) == determinant3 a * determinant3 b.
Proof. destruct_transforms. unfold_matrix_ops. ring. Qed.

Lemma determinant3_Proper (a b : Matrix3) :
  Matrix3_eq a b -> determinant3 a == determinant3 b.
Proof.
  destruct_transforms. unfold_matrix_ops. intros H.
  repeat match goal with H : _ /\ _ |- _ => destruct H end.
  repeat match goal with H : ?x == _ |- _ => rewrite H; clear H end. reflexivity.
Qed.

(** Two transforms that are equal entry by entry pass [isApprox]. *)
Lemma isApprox34_of_eq (a b : Transform) : Transform_eq a b -> isApprox34 a b = true.
Proof.
  intros H. unfold isApprox34. apply Qle_bool_iff.
  assert (Hz : squaredNorm34 (sub34 a b) == 0).
  { revert H. destruct_transforms. unfold_matrix_ops. intros H.
    repeat match goal with H : _ /\ _ |- _ => destruct H end.
    repeat match goal with H : ?x == _ |- _ => rewrite H; clear H end. ring. }
  rewrite Hz.
  pose proof (mini_nonneg _ _ (squaredNorm34_nonneg a) (squaredNorm34_nonneg b)).
  unfold dummy_precision. nra.
Qed.

(** A left inverse of a regular transform is [Transform::inverse()]. *)
Lemma left_inverse_unique (t x : Transform) :
  ~ determinant3 (linear t) == 0 ->
  Transform_eq (compose x t) Transform_Identity ->
  Transform_eq (inverse t) x.
Proof.
  intros Hreg Hx. apply Transform_eq_sym.
  apply (Transform_eq_trans _ (compose x Transform_Identity));
    [apply Transform_eq_sym, compose_Identity_r |].
  apply (Transform_eq_trans _ (compose x (compose t (inverse t)))).
  { apply compose_Proper; [apply Transform_eq_refl |].
    apply Transform_eq_sym, inverse_right, Hreg. }
  apply (Transform_eq_trans _ (compose (compose x t) (inverse t)));
    [apply Transform_eq_sym, compose_assoc |].
  apply (Transform_eq_trans _ (compose Transform_Identity (inverse t)));
    [apply compose_Proper; [exact Hx | apply Transform_eq_refl] |].
  apply compose_Identity_l.
Qed.

(** The inverse of an exact root, composed with itself, is the inverse. *)
Lemma inverse_of_exact_root (t h : Transform) :
  0 < determinant3 (linear t) ->
  Transform_eq (compose h h) t ->
  Transform_eq (inverse t) (compose (inverse h) (inverse h)).
Proof.
  intros Hdet Hroot.
  assert (Hh : ~ determinant3 (linear h) == 0).
  { intros Hz. destruct Hroot as [Hlin _].
    apply determinant3_Proper in Hlin. cbn [compose linear] in Hlin.
    rewrite determinant3_mulm, Hz in Hlin. lra. }
  apply left_inverse_unique; [lra |].
  apply (Transform_eq_trans _ (compose (compose (inverse h) (inverse h)) (compose h h)));
    [apply compose_Proper; [apply Transform_eq_refl | apply Transform_eq_sym, Hroot] |].
  apply (Transform_eq_trans _ (compose (inverse h) (compose (inverse h) (compose h h))));
    [apply compose_assoc |].
  apply (Transform_eq_trans _ (compose (inverse h) (compose (compose (inverse h) h) h))).
  { apply compose_Proper; [apply Transform_eq_refl |].
    apply Transform_eq_sym, compose_assoc. }
  apply (Transform_eq_trans _ (compose (inverse h) (compose Transform_Identity h))).
  { apply compose_Proper; [apply Transform_eq_refl |].
    apply compose_Proper; [apply inverse_left, Hh | apply Transform_eq_refl]. }
  apply (Transform_eq_trans _ (compose (inverse h) h)).
  { apply compose_Proper; [apply Transform_eq_refl | apply compose_Identity_l]. }
  apply inverse_left, Hh.
Qed.

(** X1.  With a positive determinant and a square-root routine that is
    exact on the stored transform, all four assertions pass: the
    computation completes and stores the root and its inverse.  The same
    holds for [set_transform] called with such a transform. *)
Theorem exact_root_completes (sqrt : Matrix4 -> Matrix4) (s : Base) :
  0 < determinant (homogeneous (trafo s)) ->
  exact_root sqrt (trafo s) ->
  compute_halfspace_transformations sqrt s
  = Done (with_halves s (block34 (sqrt (homogeneous (trafo s))))
                        (inverse (block34 (sqrt (homogeneous (trafo s))))))
  /\ (forall s0, set_transform sqrt (trafo s) s0
                 = Done (with_halves (with_trafo s0 (trafo s))
                           (block34 (sqrt (homogeneous (trafo s))))
                           (inverse (block34 (sqrt (homogeneous (trafo s))))))).
Proof.
  intros Hdet Hroot.
  assert (H : forall s1, trafo s1 = trafo s ->
            compute_halfspace_transformations sqrt s1
            = Done (with_halves s1 (block34 (sqrt (homogeneous (trafo s))))
                      (inverse (block34 (sqrt (homogeneous (trafo s))))))).
  { intros s1 E. unfold compute_halfspace_transformations. cbv zeta. rewrite E.
    rewrite block33_homogeneous, isApprox33_refl, check_passed.
    rewrite (proj2 (Qle_bool_false _ _) Hdet), check_passed.
    replace (trafo (with_halves s1 (block34 (sqrt (homogeneous (trafo s))))
                      (inverse (block34 (sqrt (homogeneous (trafo s)))))))
      with (trafo s) by (symmetry; exact E).
    cbn [trafo_half trafo_half_inverse with_halves].
    rewrite (isApprox34_of_eq _ _ (Transform_eq_sym _ _ Hroot)), check_passed.
    rewrite determinant_homogeneous in Hdet.
    rewrite (isApprox34_of_eq _ _ (inverse_of_exact_root _ _ Hdet Hroot)), check_passed.
    reflexivity. }
  split; [apply H; reflexivity |].
  intros s0. unfold set_transform. apply H. reflexivity.
Qed.

Lemma exact_root_completes_witness :
  compute_halfspace_transformations sqrt_axis_scaling
    (with_trafo (Base_new 12) scaling_then_translation)
  = Done (with_halves (with_trafo (Base_new 12) scaling_then_translation)
            (block34 (sqrt_axis_scaling (homogeneous scaling_then_translation)))
            (inverse (block34 (sqrt_axis_scaling (homogeneous scaling_then_translation)))))
  /\ (forall s0, set_transform sqrt_axis_scaling scaling_then_translation s0
                 = Done (with_halves (with_trafo s0 scaling_then_translation)
                           (block34 (sqrt_axis_scaling
                                       (homogeneous scaling_then_translation)))
                           (inverse (block34 (sqrt_axis_scaling
                                       (homogeneous scaling_then_translation)))))).
Proof.
  apply (exact_root_completes sqrt_axis_scaling
           (with_trafo (Base_new 12) scaling_then_translation)).
  - vm_compute. reflexivity.
  - vm_compute. repeat split; reflexivity.
Defined.

Lemma before_halfspace_linear (m : mutation) (s : Base) :
  linear (trafo (before_halfspace m s)) = fst (fst (assigned m s)).
Proof. destruct m; reflexivity. Qed.

(** X2.  A mutation completes only when the 3x3 matrix it stores has a
    positive determinant, whatever the translation and the centre are:
    [set_matrix] and [set_transform] cannot complete with a reflection or a
    singular matrix, and [set_translation], [set_centre] and [set_offset]
    cannot complete on a transform that holds one. *)
Theorem completed_mutation_positive_determinant
        (sqrt : Matrix4 -> Matrix4) (m : mutation) (s s' : Base) :
  mutate sqrt m s = Done s' ->
  linear (trafo s') = fst (fst (assigned m s))
  /\ 0 < determinant3 (linear (trafo s')).
Proof.
  rewrite mutate_ends_in_halfspace. intros H.
  pose proof (compute_halfspace_transformations_keeps sqrt _ _ H) as (Ht & _ & _).
  apply compute_halfspace_transformations_Done in H as (Hdet & _).
  rewrite determinant_homogeneous in Hdet.
  rewrite Ht, before_halfspace_linear in *. split; [reflexivity | exact Hdet].
Qed.

Lemma completed_mutation_positive_determinant_witness :
  linear (trafo scaled) = scaling_4_9_16
  /\ 0 < determinant3 (linear (trafo scaled)).
Proof.
  apply (completed_mutation_positive_determinant sqrt_axis_scaling
           (SetMatrix scaling_4_9_16) (Base_new 12) scaled).
  vm_compute. reflexivity.
Defined.

Lemma set_centre_ends_in_halfspace (sqrt : Matrix4 -> Matrix4) (c : Vector3) (s : Base) :
  set_centre sqrt c s
  = compute_halfspace_transformations sqrt (compute_offset (with_centre s c)).
Proof. reflexivity. Qed.

(** X3.  On a transform whose matrix is the identity, a completed
    [set_centre] leaves the transform as it was: the centre only matters
    once there is a rotation, scaling or shear. *)
Theorem set_centre_of_translation (sqrt : Matrix4 -> Matrix4)
        (centre_in : Vector3) (s s' : Base) :
  linear (trafo s) = Matrix3_Identity ->
  set_centre sqrt centre_in s = Done s' ->
  Transform_eq (trafo s') (trafo s) /\ centre s' = centre_in.
Proof.
  intros Hid H. rewrite set_centre_ends_in_halfspace in H.
  apply compute_halfspace_transformations_keeps in H as (Ht & Hc & _).
  rewrite Ht, Hc. split; [| reflexivity].
  destruct s as [n [l [x y z]] hf hi [cx cy cz] w]. cbn [trafo linear] in Hid. subst l.
  destruct centre_in as [a b c]. unfold_matrix_ops. repeat split; ring.
Qed.

Lemma set_centre_of_translation_witness :
  exists s',
    set_centre sqrt_axis_scaling centre_123 (Base_new 12) = Done s'
    /\ Transform_eq (trafo s') (trafo (Base_new 12)) /\ centre s' = centre_123.
Proof.
  eexists. split.
  - vm_compute. reflexivity.
  - apply (set_centre_of_translation sqrt_axis_scaling centre_123 (Base_new 12));
      reflexivity.
Defined.

(** X4.  Two calls of [set_centre] in a row add up: the second call
    offsets the translation that the first call left, so the stored
    translation is [t + (c1 - M c1) + (c2 - M c2)], not [t + (c2 - M c2)]. *)
Theorem set_centre_twice (sqrt : Matrix4 -> Matrix4) (c1 c2 : Vector3) (s s1 s2 : Base) :
  set_centre sqrt c1 s = Done s1 ->
  set_centre sqrt c2 s1 = Done s2 ->
  linear (trafo s2) = linear (trafo s)
  /\ centre s2 = c2
  /\ Vector3_eq (translation (trafo s2))
                (add (translation (trafo s))
                     (add (sub c1 (mulv (linear (trafo s)) c1))
                          (sub c2 (mulv (linear (trafo s)) c2)))).
Proof.
  rewrite !set_centre_ends_in_halfspace. intros H1 H2.
  apply compute_halfspace_transformations_keeps in H1 as (Ht1 & Hc1 & _).
  apply compute_halfspace_transformations_keeps in H2 as (Ht2 & Hc2 & _).
  rewrite Ht2, Hc2. cbn [compute_offset with_centre with_trafo trafo centre linear
    translation]. rewrite Ht1. cbn [compute_offset with_centre with_trafo trafo centre
    linear translation].
  split; [reflexivity | split; [reflexivity |]].
  destruct s as [n [[[a b c] [d e f] [g h i]] [x y z]] hf hi [cx cy cz] w].
  destruct c1 as [p1 q1 r1], c2 as [p2 q2 r2].
  unfold_matrix_ops. repeat split; ring.
Qed.

Lemma set_centre_twice_witness :
  set_matrix sqrt_axis_scaling scaling_4_9_16 (Base_new 12) = Done scaled
  /\ translation (trafo scaled) = Vector3_Zero
  /\ translation (trafo scaled_centred_twice) = mkVector3 (-6) (-32) (-90)
  /\ linear (trafo scaled_centred_twice) = linear (trafo scaled)
  /\ centre scaled_centred_twice = centre_123
  /\ Vector3_eq (translation (trafo scaled_centred_twice))
                (add (translation (trafo scaled))
                     (add (sub centre_123 (mulv (linear (trafo scaled)) centre_123))
                          (sub centre_123 (mulv (linear (trafo scaled)) centre_123)))).
Proof.
  split; [vm_compute; reflexivity |].
  split; [reflexivity |].
  split; [reflexivity |].
  apply (set_centre_twice sqrt_axis_scaling centre_123 centre_123
           scaled scaled_centred scaled_centred_twice);
    vm_compute; reflexivity.
Defined.

(* ================================================================== *)
(** * Further properties of the default [robust_estimate] *)
(* ================================================================== *)

Section RobustEstimateBatches.

Variables ParamType VectorType : Type.
Variable plus : VectorType -> VectorType -> VectorType.

(** X5.  Estimates can be handed over in batches: one call on [es1 ++ es2]
    leaves the gradient that a call on [es1] followed by a call on [es2]
    leaves, and an empty list leaves the gradient as it is.  Nothing is
    asked of [+=]. *)
Theorem robust_estimate_in_batches
        (gradient : VectorType) (es1 es2 : list VectorType)
        (params : ParamType) (parameter_vector : VectorType) :
  robust_estimate ParamType VectorType plus gradient (es1 ++ es2) params parameter_vector
  = robust_estimate ParamType VectorType plus
      (fst (robust_estimate ParamType VectorType plus gradient es1 params parameter_vector))
      es2 params parameter_vector
  /\ robust_estimate ParamType VectorType plus gradient [] params parameter_vector
     = (gradient, true).
Proof. unfold robust_estimate. simpl. rewrite fold_left_app. auto. Qed.

Hypothesis plus_assoc : forall a b c, plus (plus a b) c = plus a (plus b c).
Hypothesis plus_comm : forall a b, plus a b = plus b a.

Lemma fold_left_plus_swap (es : list VectorType) (g e : VectorType) :
  fold_left plus es (plus g e) = plus (fold_left plus es g) e.
Proof.
  revert g. induction es as [| x es IH]; intros g; simpl; [reflexivity |].
  rewrite <- IH. f_equal.
  rewrite !plus_assoc. f_equal. apply plus_comm.
Qed.

(** X6.  When [+=] is associative and commutative, the order of the
    estimates does not matter. *)
Theorem robust_estimate_any_order
        (gradient : VectorType) (es1 es2 : list VectorType)
        (params : ParamType) (parameter_vector : VectorType) :
  Permutation es1 es2 ->
  robust_estimate ParamType VectorType plus gradient es1 params parameter_vector
  = robust_estimate ParamType VectorType plus gradient es2 params parameter_vector.
Proof.
  unfold robust_estimate. intros Hperm. f_equal. revert gradient.
  induction Hperm as [| x l l' _ IH | x y l | l l' l'' _ IH1 _ IH2];
    intros gradient; simpl.
  - reflexivity.
  - apply IH.
  - f_equal. rewrite !plus_assoc. f_equal. apply plus_comm.
  - rewrite IH1. apply IH2.
Qed.

End RobustEstimateBatches.

Lemma Qplus_comm_eq (a b : Q) : a + b = b + a.
Proof.
  destruct a as [an ad], b as [bn bd]. unfold Qplus; simpl. f_equal.
  - ring.
  - apply Pos.mul_comm.
Qed.

Lemma add_comm_eq (a b : Vector3) : add a b = add b a.
Proof.
  unfold add. rewrite (Qplus_comm_eq (vx a)), (Qplus_comm_eq (vy a)),
    (Qplus_comm_eq (vz a)). reflexivity.
Qed.

Lemma robust_estimate_any_order_witness :
  robust_estimate unit Vector3 add (mkVector3 1 0 0)
                  [mkVector3 0 2 0; mkVector3 0 0 3] tt Vector3_Zero
  = robust_estimate unit Vector3 add (mkVector3 1 0 0)
                    [mkVector3 0 0 3; mkVector3 0 2 0] tt Vector3_Zero.
Proof.
  apply (robust_estimate_any_order unit Vector3 add add_assoc_eq add_comm_eq).
  apply perm_swap.
Defined.

(* ================================================================== *)
(** * Points under the half transforms *)
(* ================================================================== *)

Lemma Vector3_eq_sym (a b : Vector3) : Vector3_eq a b -> Vector3_eq b a.
Proof. intros (H1 & H2 & H3). repeat split; symmetry; assumption. Qed.

Lemma Vector3_eq_trans (a b c : Vector3) :
  Vector3_eq a b -> Vector3_eq b c -> Vector3_eq a c.
Proof.
  intros (H1 & H2 & H3) (K1 & K2 & K3). repeat split; etransitivity; eassumption.
Qed.

Lemma apply_compose (a b : Transform) (p : Vector3) :
  Vector3_eq (apply a (apply b p)) (apply (compose a b) p).
Proof. destruct_transforms. unfold_matrix_ops. repeat split; ring. Qed.

Lemma apply_Proper (a b : Transform) (p : Vector3) :
  Transform_eq a b -> Vector3_eq (apply a p) (apply b p).
Proof.
  destruct_transforms. unfold_matrix_ops. intros H.
  repeat match goal with H : _ /\ _ |- _ => destruct H end.
  repeat split;
    repeat match goal with H : ?x == _ |- _ => rewrite H; clear H end; reflexivity.
Qed.

Lemma apply_Identity (p : Vector3) : Vector3_eq (apply Transform_Identity p) p.
Proof. destruct_transforms. unfold_matrix_ops. repeat split; ring. Qed.

(** A transform whose square has a positive determinant is regular. *)
Lemma exact_root_regular (t h : Transform) :
  0 < determinant3 (linear t) ->
  Transform_eq (compose h h) t ->
  ~ determinant3 (linear h) == 0.
Proof.
  intros Hdet [Hlin _] Hz.
  apply determinant3_Proper in Hlin. cbn [compose linear] in Hlin.
  rewrite determinant3_mulm, Hz in Hlin. lra.
Qed.

(** Applying [x] and then [y] is the identity when [y * x] is. *)
Lemma apply_cancel (x y : Transform) (p : Vector3) :
  Transform_eq (compose y x) Transform_Identity ->
  Vector3_eq (apply y (apply x p)) p.
Proof.
  intros H.
  apply (Vector3_eq_trans _ (apply (compose y x) p)); [apply apply_compose |].
  apply (Vector3_eq_trans _ (apply Transform_Identity p));
    [apply apply_Proper, H | apply apply_Identity].
Qed.

(** X7.  After a mutation that completed with a square root that is exact
    on the stored transform, the three point maps fit together exactly:
    [transform_half] twice is [transform], [transform_half_inverse] undoes
    [transform_half] and the other way round, and
    [transform_half_inverse] twice undoes [transform]. *)
Theorem half_transforms_round_trip
        (sqrt : Matrix4 -> Matrix4) (m : mutation) (s s' : Base) (p : Vector3) :
  mutate sqrt m s = Done s' ->
  exact_root sqrt (trafo s') ->
  Vector3_eq (transform_half s' (transform_half s' p)) (transform s' p)
  /\ Vector3_eq (transform_half_inverse s' (transform_half s' p)) p
  /\ Vector3_eq (transform_half s' (transform_half_inverse s' p)) p
  /\ Vector3_eq (transform_half_inverse s'
                   (transform_half_inverse s' (transform s' p))) p.
Proof.
  rewrite mutate_ends_in_halfspace. intros H Hroot.
  apply compute_halfspace_transformations_Done in H as (Hdet & -> & _ & _).
  revert Hroot Hdet. generalize (before_halfspace m s). clear s m. intros s.
  unfold exact_root, transform, transform_half, transform_half_inverse.
  cbn [trafo trafo_half trafo_half_inverse with_halves].
  rewrite determinant_homogeneous.
  generalize (block34 (sqrt (homogeneous (trafo s)))). intros h Hroot Hdet.
  pose proof (exact_root_regular _ _ Hdet Hroot) as Hreg.
  split; [| split; [| split]].
  - apply (Vector3_eq_trans _ (apply (compose h h) p)); [apply apply_compose |].
    apply apply_Proper, Hroot.
  - apply apply_cancel, inverse_left, Hreg.
  - apply apply_cancel, inverse_right, Hreg.
  - apply (Vector3_eq_trans _ (apply (compose (inverse h) (inverse h))
                                     (apply (trafo s) p)));
      [apply apply_compose |].
    apply (Vector3_eq_trans _ (apply (inverse (trafo s)) (apply (trafo s) p))).
    { apply apply_Proper, Transform_eq_sym, inverse_of_exact_root; assumption. }
    apply apply_cancel, inverse_left. lra.
Qed.

Lemma half_transforms_round_trip_witness :
  transform scaled_translated centre_123 = mkVector3 7 26 63
  /\ transform_half scaled_translated centre_123 = mkVector3 3 8 15
  /\ Vector3_eq (transform_half scaled_translated
                   (transform_half scaled_translated centre_123))
                (transform scaled_translated centre_123)
  /\ Vector3_eq (transform_half_inverse scaled_translated
                   (transform_half scaled_translated centre_123)) centre_123
  /\ Vector3_eq (transform_half scaled_translated
                   (transform_half_inverse scaled_translated centre_123)) centre_123
  /\ Vector3_eq (transform_half_inverse scaled_translated
                   (transform_half_inverse scaled_translated
                      (transform scaled_translated centre_123))) centre_123.
Proof.
  split; [vm_compute; reflexivity |].
  split; [vm_compute; reflexivity |].
  apply (half_transforms_round_trip sqrt_axis_scaling
           (SetTransform scaling_then_translation) (Base_new 12) scaled_translated).
  - vm_compute. reflexivity.
  - vm_compute. repeat split; reflexivity.
Defined.

(* ================================================================== *)
(** * The optimiser weights *)
(* ================================================================== *)

(** X8.  On a transform whose weights still have the length its
    constructor gave them, [set_optimiser_weights] completes and stores
    the three weights, so the weights now have length three; a further
    call completes exactly when the transform has three parameters, and
    stops at the assertion for any other number, such as the 12 of an
    affine transform. *)
Theorem set_optimiser_weights_once (weights : Vector3) (s : Base) :
  List.length (get_optimiser_weights s) = size s ->
  exists s',
    set_optimiser_weights weights s = Done s'
    /\ get_optimiser_weights s'
       = [Some (vx weights); Some (vy weights); Some (vz weights)]
    /\ size s' = size s
    /\ trafo s' = trafo s
    /\ forall again,
         (exists s'', set_optimiser_weights again s' = Done s'') <-> size s = 3%nat.
Proof.
  unfold get_optimiser_weights, set_optimiser_weights, size. intros Hlen.
  rewrite Hlen, Nat.eqb_refl. cbn [assert and_then].
  eexists. split; [reflexivity |].
  cbn [optimiser_weights number_of_parameters trafo List.length].
  repeat split.
  - intros [s'' H]. destruct (number_of_parameters s =? 3)%nat eqn:E.
    + apply Nat.eqb_eq, E.
    + discriminate H.
  - intros ->. eexists. reflexivity.
Qed.

Lemma set_optimiser_weights_once_witness :
  exists s',
    set_optimiser_weights centre_123 (Base_new 12) = Done s'
    /\ get_optimiser_weights s' = [Some 1; Some 2; Some 3]
    /\ size s' = 12%nat
    /\ trafo s' = Transform_Identity
    /\ forall again,
         (exists s'', set_optimiser_weights again s' = Done s'') <-> 12%nat = 3%nat.
Proof.
  apply (set_optimiser_weights_once centre_123 (Base_new 12)). reflexivity.
Defined.

(* ================================================================== *)
(** * More properties of [run] *)
(* ================================================================== *)

Module RunLogFacts.

Import Mrregister.
Import MrregisterLog.
Import RunFacts.

Lemma in_bind {A B : Type} (e : Event) (m : M A) (k : A -> M B) :
  In e (fst (bind m k)) ->
  In e (fst m) \/ exists a, snd m = Return a /\ In e (fst (k a)).
Proof.
  destruct m as [log [a | msg]]; simpl; [| auto].
  destruct (k a) as [log2 r] eqn:E. simpl. rewrite in_app_iff.
  intros [H | H]; [auto | right]. exists a. rewrite E. auto.
Qed.

Lemma log_all_not_in {A : Type} (P : Event -> bool) (m : M A) (e : Event) :
  log_all P m -> P e = false -> ~ In e (fst m).
Proof.
  unfold log_all. rewrite forallb_forall. intros H He Hin.
  rewrite (H e Hin) in He. discriminate.
Qed.

Lemma bind_Exception {A B : Type} (m : M A) (k : A -> M B) (msg : string) :
  snd (bind m k) = Exception msg ->
  snd m = Exception msg \/ exists a, snd m = Return a /\ snd (k a) = Exception msg.
Proof.
  destruct m as [log [a | msg']]; simpl; [| intros [= ->]; left; reflexivity].
  destruct (k a) as [log2 r] eqn:E. simpl. intros ->.
  right. exists a. rewrite E. split; reflexivity.
Qed.

Lemma returns_not_Exception {A : Type} (m : M A) (msg : string) :
  returns m -> snd m <> Exception msg.
Proof. intros [a H]. rewrite H. discriminate. Qed.

Section Phases.

Variables LforN NforL : Z -> Z.
Variable cl : CommandLine.

(** [read_command_line] logs what its six phases log. *)
Lemma read_command_line_phases (P : Event -> bool) :
  log_all P (load_images LforN NforL cl) ->
  log_all P (open_outputs cl) ->
  log_all P (open_masks cl) ->
  (forall dr, log_all P (rigid_options cl dr)) ->
  (forall dr da i, log_all P (affine_options cl dr da i)) ->
  (forall dr da ds i ia, log_all P (syn_options cl dr da ds i ia)) ->
  log_all P (read_command_line LforN NforL cl).
Proof.
  intros Hl Ho Hm Hr Ha Hs. unfold read_command_line.
  apply log_all_bind; [exact Hl | intros dre _].
  apply log_all_bind; [exact Ho | intros _ _].
  destruct (select_stages cl) as [[dr da] ds].
  apply log_all_bind; [exact Hm | intros _ _].
  apply log_all_bind; [apply Hr | intros [i rm] _].
  apply log_all_bind; [apply Ha | intros [[ia am] ae] _].
  apply log_all_bind; [apply Hs | intros [dr' da'] _].
  apply log_all_ret.
Qed.

(** [do_reorientation] is what [load_images] returned. *)
Lemma read_command_line_do_reorientation (s : Settings) :
  snd (read_command_line LforN NforL cl) = Return s ->
  snd (load_images LforN NforL cl) = Return (do_reorientation s).
Proof.
  unfold read_command_line. intros H.
  apply bind_returned in H as (dre & Hdre & H & _).
  apply bind_returned in H as (? & _ & H & _).
  destruct (select_stages cl) as [[dr da] ds].
  apply bind_returned in H as (? & _ & H & _).
  apply bind_returned in H as ([i rm] & _ & H & _).
  apply bind_returned in H as ([[ia am] ae] & _ & H & _).
  apply bind_returned in H as ([dr' da'] & _ & H & _).
  injection H as <-. exact Hdre.
Qed.

End Phases.

(** The option sections log nothing of kind [bad] when every call they
    can make is cleared. *)
Ltac options_tac :=
  log_all_tac; try (apply set_init_type_choice_all; reflexivity).

Section Headers.

Variables LforN NforL : Z -> Z.
Variable cl : CommandLine.

Lemma load_images_rejects :
  headers_disagree cl ->
  exists msg, load_images LforN NforL cl = ([], Exception msg).
Proof.
  unfold headers_disagree, load_images. intros H.
  destruct (ndim (im1_header cl) =? ndim (im2_header cl))%nat eqn:E1;
    cbn [negb]; [| eexists; reflexivity].
  destruct (4 <? ndim (im2_header cl))%nat eqn:E2; [eexists; reflexivity |].
  destruct H as [H | [H | [H4 Hs]]].
  - apply Nat.eqb_eq in E1. contradiction.
  - apply Nat.ltb_lt in H. congruence.
  - apply Z.eqb_neq in Hs. rewrite H4, Nat.eqb_refl, Hs. eexists; reflexivity.
Qed.

(** X9.  Images whose headers differ in their number of axes, have more
    than four axes, or are 4-D with different numbers of volumes are
    rejected with an exception before anything is loaded, created or
    configured: the log of calls is empty. *)
Theorem inconsistent_headers_rejected :
  headers_disagree cl ->
  exists msg, run LforN NforL cl = ([], Exception msg).
Proof.
  intros H. destruct (load_images_rejects H) as [msg E]. exists msg.
  unfold run, read_command_line. rewrite E. reflexivity.
Qed.

Lemma bind_ret_l {A B : Type} (a : A) (k : A -> M B) : bind (ret a) k = k a.
Proof. unfold bind, ret. destruct (k a). reflexivity. Qed.

Ltac loads_tac :=
  repeat first [ log_all_step | apply log_all_call, Z.eqb_refl ].

(** With consistent headers, [load_images] loads both images with one
    and the same number of volumes, within what the headers have. *)
Lemma load_images_volumes :
  exists num_vols,
    log_all (loads num_vols) (load_images LforN NforL cl)
    /\ (log_all (fun e => negb (is_load_image e)) (load_images LforN NforL cl)
        \/ volumes_within cl num_vols).
Proof.
  unfold load_images, volumes_within.
  destruct (ndim (im1_header cl) =? ndim (im2_header cl))%nat;
    cbn [negb]; [| exists 0%Z; split; [| left]; reflexivity].
  destruct (4 <? ndim (im2_header cl))%nat;
    [exists 0%Z; split; [| left]; reflexivity |].
  destruct (ndim (im2_header cl) =? 4)%nat;
    [| exists 1%Z; split; [reflexivity | right; reflexivity]].
  destruct (size (im1_header cl) 3 =? size (im2_header cl) 3)%Z eqn:Es;
    cbn [negb]; [| exists 0%Z; split; [| left]; reflexivity].
  apply Z.eqb_eq in Es.
  destruct (whole_SH_order (size (im2_header cl) 3) && negb (noreorientation cl)
            && (1 <? size (im2_header cl) 3)%Z);
    [| exists (size (im2_header cl) 3); split;
       [rewrite Es; loads_tac | right; rewrite Es; lia]].
  set (lmax0 := if (LforN (size (im2_header cl) 3) <? 4)%Z
                then LforN (size (im2_header cl) 3) else 4%Z).
  assert (Hl : forall l,
             exists num_vols,
               log_all (loads num_vols)
                 (call (CONSOLE "SH series detected, performing FOD registration") ;;
                  l' <- ret l ;;
                  call (INFO ("registering FOD images using lmax = " ++ str l')) ;;
                  if (size (im2_header cl) 3 <? NforL l')%Z
                  then throw "not enough SH coefficients within input image for desired lmax"
                  else call (load_image (argument0 cl) (NforL l')) ;;
                       call (load_image (argument1 cl) (NforL l')) ;;
                       call (load_directions (directions cl)) ;;
                       ret true)
               /\ (log_all (fun e => negb (is_load_image e))
                     (call (CONSOLE "SH series detected, performing FOD registration") ;;
                      l' <- ret l ;;
                      call (INFO ("registering FOD images using lmax = " ++ str l')) ;;
                      if (size (im2_header cl) 3 <? NforL l')%Z
                      then throw "not enough SH coefficients within input image for desired lmax"
                      else call (load_image (argument0 cl) (NforL l')) ;;
                           call (load_image (argument1 cl) (NforL l')) ;;
                           call (load_directions (directions cl)) ;;
                           ret true)
                   \/ (NforL l <= size (im1_header cl) 3
                       /\ NforL l <= size (im2_header cl) 3)%Z
                      /\ num_vols = NforL l)).
  { intros l. rewrite bind_ret_l.
    destruct (size (im2_header cl) 3 <? NforL l)%Z eqn:El.
    - exists 0%Z. split; [| left]; reflexivity.
    - apply Z.ltb_ge in El. exists (NforL l).
      split; [loads_tac | right; split; [rewrite Es; lia | reflexivity]]. }
  destruct (lmax cl) as [l |]; [destruct (negb (Z.rem l 2 =? 0)%Z) |].
  - exists 0%Z. split; [| left]; reflexivity.
  - destruct (Hl l) as (n & H1 & [H2 | [H2 E]]); exists n; subst; auto.
  - destruct (Hl lmax0) as (n & H1 & [H2 | [H2 E]]); exists n; subst; auto.
Qed.

Lemma register_never_loads (s : Settings) :
  log_all (fun e => negb (is_load_image e)) (register cl s).
Proof.
  unfold register, run_rigid, run_affine, run_affine_difference, run_syn,
    write_transformed, write_transformed_midway, warp_to_midway.
  log_all_tac.
Qed.

Lemma run_loads_in_load_images (f : string) (n : Z) :
  In (load_image f n) (fst (run LforN NforL cl)) ->
  In (load_image f n) (fst (load_images LforN NforL cl)).
Proof.
  unfold run. intros H. apply in_bind in H as [H | (s & _ & H)].
  - unfold read_command_line in H.
    apply in_bind in H as [H | (dre & _ & H)]; [exact H |].
    exfalso. revert H.
    apply (log_all_not_in (fun e => negb (is_load_image e))); [| reflexivity].
    apply log_all_bind; [unfold open_outputs; log_all_tac | intros _ _].
    destruct (select_stages cl) as [[dr da] ds].
    apply log_all_bind; [unfold open_masks; log_all_tac | intros _ _].
    apply log_all_bind; [unfold rigid_options; options_tac | intros [i rm] _].
    apply log_all_bind; [unfold affine_options; options_tac | intros [[ia am] ae] _].
    apply log_all_bind; [unfold syn_options; log_all_tac | intros [dr' da'] _].
    apply log_all_ret.
  - exfalso. revert H.
    apply (log_all_not_in (fun e => negb (is_load_image e)));
      [apply register_never_loads | reflexivity].
Qed.

(** X10.  Whenever [run] loads an image, it loads it with no more volumes
    than either header has along the fourth axis (one volume for images
    that are not 4-D), and every image it loads is loaded with that same
    number of volumes. *)
Theorem loaded_volumes (f : string) (n : Z) :
  In (load_image f n) (fst (run LforN NforL cl)) ->
  volumes_within cl n
  /\ forall f' n', In (load_image f' n') (fst (run LforN NforL cl)) -> n' = n.
Proof.
  intros H. apply run_loads_in_load_images in H.
  destruct load_images_volumes as (N & HN & Hb).
  assert (HN' : forall f' n',
             In (load_image f' n') (fst (load_images LforN NforL cl)) -> n' = N).
  { intros f' n' Hin. unfold log_all in HN. rewrite forallb_forall in HN.
    specialize (HN _ Hin). apply Z.eqb_eq. exact HN. }
  rewrite (HN' f n H) in *. split.
  - destruct Hb as [Hb | Hb]; [| exact Hb].
    exfalso. revert H. apply (log_all_not_in _ _ _ Hb). reflexivity.
  - intros f' n' Hin. apply (HN' f'), run_loads_in_load_images, Hin.
Qed.

Lemma loaded_headers_agree (f : string) (n : Z) :
  In (load_image f n) (fst (load_images LforN NforL cl)) ->
  ndim (im1_header cl) = ndim (im2_header cl).
Proof.
  unfold load_images.
  destruct (ndim (im1_header cl) =? ndim (im2_header cl))%nat eqn:E;
    cbn [negb]; [intros _; apply Nat.eqb_eq, E | intros []].
Qed.

Lemma loaded_volumes_within (f : string) (n : Z) :
  In (load_image f n) (fst (load_images LforN NforL cl)) -> volumes_within cl n.
Proof.
  intros H. destruct load_images_volumes as (N & HN & Hb).
  assert (E : n = N).
  { unfold log_all in HN. rewrite forallb_forall in HN.
    specialize (HN _ H). apply Z.eqb_eq. exact HN. }
  subst N. destruct Hb as [Hb | Hb]; [| exact Hb].
  exfalso. revert H. apply (log_all_not_in _ _ _ Hb). reflexivity.
Qed.

(** X11.  Whenever [run] calls [load_image] (with a number of volumes that
    is not negative), the image that [load_image] leaves has as many axes
    as the file, with [num_vols] volumes when [num_vols] is above one and
    all the volumes of the file otherwise (as for [-lmax 0], where one
    coefficient is asked for); it never has more volumes than the file. *)
Theorem loaded_image_keeps_shape (f : string) (n : Z) (h : Header) :
  In (load_image f n) (fst (run LforN NforL cl)) ->
  (0 <= n)%Z ->
  h = im1_header cl \/ h = im2_header cl ->
  ndim (LoadImage.load_image h n) = ndim h
  /\ size (LoadImage.load_image h n) 3 = (if (1 <? n)%Z then n else size h 3)
  /\ (size (LoadImage.load_image h n) 3 <= size h 3)%Z.
Proof.
  intros H _ Hh. apply run_loads_in_load_images in H.
  pose proof (loaded_headers_agree f n H) as Hnd.
  pose proof (loaded_volumes_within f n H) as Hvol.
  unfold volumes_within in Hvol.
  destruct (ndim (im2_header cl) =? 4)%nat eqn:E4.
  - apply Nat.eqb_eq in E4.
    assert (Hn : (n <= size h 3)%Z) by (destruct Hh; subst h; tauto).
    assert (H4 : ndim h = 4%nat) by (destruct Hh; subst h; congruence).
    clear - Hn H4. unfold LoadImage.load_image.
    destruct (1 <? n)%Z; cbn [andb];
      [| split; [reflexivity | split; [reflexivity | lia]]].
    destruct (n =? size h 3)%Z eqn:En; cbn [negb].
    + apply Z.eqb_eq in En. split; [reflexivity | split; [symmetry; exact En | lia]].
    + destruct h as [[| a [| b [| c [| d [| e l]]]]]]; try discriminate H4.
      unfold size in Hn. cbn in Hn |- *. split; [reflexivity | split; [reflexivity | exact Hn]].
  - subst n. unfold LoadImage.load_image.
    change (1 <? 1)%Z with false. cbn [andb].
    split; [reflexivity | split; [reflexivity | lia]].
Qed.

(** X12.  In a registration of spherical-harmonic series, an odd [-lmax]
    and an [-lmax] that needs more coefficients than the images have
    volumes are each rejected with an exception before any image is
    loaded. *)
Theorem SH_lmax_rejected (l : Z) :
  may_reorient cl = true ->
  lmax cl = Some l ->
  (Z.rem l 2 <> 0 \/ size (im2_header cl) 3 < NforL l)%Z ->
  fails (run LforN NforL cl)
  /\ log_all (fun e => negb (is_load_image e)) (run LforN NforL cl).
Proof.
  intros HSH Hl Hbad.
  assert (H : fails (load_images LforN NforL cl)
              /\ log_all (fun e => negb (is_load_image e)) (load_images LforN NforL cl)).
  { unfold load_images. unfold may_reorient in HSH.
    apply andb_true_iff in HSH as [HSH H1].
    apply andb_true_iff in HSH as [HSH Hnore].
    apply andb_true_iff in HSH as [H4 Hwhole].
    destruct (negb (ndim (im1_header cl) =? ndim (im2_header cl))%nat);
      [split; [eexists |]; reflexivity |].
    destruct (4 <? ndim (im2_header cl))%nat; [split; [eexists |]; reflexivity |].
    rewrite H4.
    destruct (negb (size (im1_header cl) 3 =? size (im2_header cl) 3)%Z);
      [split; [eexists |]; reflexivity |].
    rewrite Hwhole, Hnore, H1, Hl. cbn [andb].
    destruct (Z.rem l 2 =? 0)%Z eqn:Eodd; cbn [negb];
      [| split; [eexists |]; reflexivity].
    rewrite bind_ret_l.
    destruct Hbad as [Hodd | Hfew]; [apply Z.eqb_eq in Eodd; contradiction |].
    apply Z.ltb_lt in Hfew. rewrite Hfew. split; [eexists |]; reflexivity. }
  destruct H as [Hf Hlog]. unfold run, read_command_line. split.
  - apply bind_fails_l, bind_fails_l, Hf.
  - apply log_all_bind_failed; [apply bind_fails_l, Hf |].
    apply log_all_bind_failed; assumption.
Qed.

End Headers.


Section Initialisations.

Variables LforN NforL : Z -> Z.
Variable cl : CommandLine.

(** X13.  [-rigid_init] with [-rigid_centre], [-affine_init] with
    [-affine_centre], [-affine_init] with [-rigid_init], and
    [-affine_init] while [-type] selects a rigid stage are each rejected
    with an exception before any optimisation or resampling is
    started. *)
Theorem clashing_initialisations_rejected :
  initialisations_clash cl ->
  fails (run LforN NforL cl) /\ log_all is_preparation (run LforN NforL cl).
Proof.
  intros H. apply rejected_before_registration. unfold read_command_line.
  apply bind_fails_r; intros dre _.
  apply bind_fails_r; intros _ _.
  unfold initialisations_clash, selected in H.
  destruct (select_stages cl) as [[dr da] ds].
  apply bind_fails_r; intros _ _.
  destruct H as [[H1 H2] | [[H1 H2] | [[H1 H2] | [H1 H2]]]].
  - apply bind_fails_l. unfold rigid_options.
    destruct (rigid_init cl), (rigid_centre cl); try discriminate. find_throw.
  - apply bind_fails_r; intros [i rm] _. apply bind_fails_l. unfold affine_options.
    destruct (affine_init cl), (affine_centre cl); try discriminate. find_throw.
  - apply bind_fails_r; intros [i rm] Hr. apply rigid_options_returned in Hr.
    injection Hr as -> ->. rewrite H2.
    apply bind_fails_l. unfold affine_options.
    destruct (affine_init cl); try discriminate. find_throw.
  - subst dr. apply bind_fails_r; intros [i rm] _.
    apply bind_fails_l. unfold affine_options.
    destruct (affine_init cl); try discriminate. destruct i; find_throw.
Qed.

End Initialisations.

Section Completion.

Variables LforN NforL : Z -> Z.
Variable cl : CommandLine.

Lemma run_rigid_returns (dr : bool) rm :
  (image_ndim cl = 4%nat -> dr = true -> rm = Registration.Diff) ->
  returns (run_rigid cl dr rm).
Proof.
  intros H. unfold run_rigid. destruct dr; [| apply returns_ret]. cbn [when].
  destruct (image_ndim cl =? 4)%nat eqn:E.
  - apply Nat.eqb_eq in E. rewrite (H E eq_refl).
    cbn [Registration.LinearMetricType_eqb when]. returns_tac.
  - returns_tac.
Qed.

Lemma run_affine_returns (dr da dre : bool) am ae :
  (image_ndim cl = 4%nat -> da = true -> am = Registration.Diff) ->
  returns (run_affine cl dr da dre am ae).
Proof.
  intros H. unfold run_affine, run_affine_difference.
  destruct da; [| apply returns_ret]. cbn [when].
  destruct (image_ndim cl =? 4)%nat eqn:E.
  - apply Nat.eqb_eq in E. rewrite (H E eq_refl). returns_tac.
  - returns_tac.
Qed.

Lemma outputs_return (dr da ds dre : bool) :
  returns (run_syn cl dr da ds dre ;;
           write_transformed cl da ds dre ;;
           write_transformed_midway cl da ds dre).
Proof.
  unfold run_syn, write_transformed, write_transformed_midway, warp_to_midway.
  returns_tac.
Qed.

Lemma run_rigid_throws (dr : bool) rm (msg : string) :
  snd (run_rigid cl dr rm) = Exception msg ->
  msg = ncc_4D_message /\ image_ndim cl = 4%nat
  /\ dr = true /\ rm = Registration.NCC.
Proof.
  intros H.
  destruct (image_ndim cl =? 4)%nat eqn:E, dr, rm;
    try (exfalso; revert H; apply returns_not_Exception, run_rigid_returns;
         intros E'; first [discriminate | apply Nat.eqb_eq in E'; congruence
                          | reflexivity]).
  apply Nat.eqb_eq in E. unfold run_rigid in H. rewrite E in H.
  simpl in H. injection H as <-. auto.
Qed.

Lemma run_affine_throws (dr da dre : bool) am ae (msg : string) :
  snd (run_affine cl dr da dre am ae) = Exception msg ->
  msg = ncc_4D_message /\ image_ndim cl = 4%nat
  /\ da = true /\ am = Registration.NCC.
Proof.
  intros H.
  destruct (image_ndim cl =? 4)%nat eqn:E, da, am;
    try (exfalso; revert H; apply returns_not_Exception, run_affine_returns;
         intros E'; first [discriminate | apply Nat.eqb_eq in E'; congruence
                          | reflexivity]).
  apply Nat.eqb_eq in E. unfold run_affine in H. rewrite E in H.
  destruct dr, dre; simpl in H; injection H as <-; auto.
Qed.

(** X14.  Once the option section has completed, the only [throw] of [run]
    that can still be reached is the one for cross-correlation on 4-D
    data: if [run] then ends with an exception of its own, the images are
    4-D and a linear stage that is executed has the cross-correlation
    metric.  (Exceptions raised inside the routines that [run] calls are
    not part of the model.) *)
Theorem accepted_run_throws_only_ncc_4D (s : Settings) (msg : string) :
  snd (read_command_line LforN NforL cl) = Return s ->
  snd (run LforN NforL cl) = Exception msg ->
  msg = ncc_4D_message
  /\ ndim (im2_header cl) = 4%nat
  /\ exists r, executed cl (linear_stage r) = true
               /\ selected_metric cl r = Registration.NCC.
Proof.
  intros Hs H.
  pose proof (read_command_line_returned LforN NforL cl s Hs)
    as (Hdr & Hda & _ & Hrm & Ham & _).
  unfold run in H. apply bind_Exception in H as [H | (s0 & Hs0 & H)];
    [rewrite Hs in H; discriminate H |].
  rewrite Hs in Hs0. injection Hs0 as <-.
  unfold register in H.
  apply bind_Exception in H as [H | (? & _ & H)].
  { apply run_rigid_throws in H as (-> & H4 & Hd & Hm).
    split; [reflexivity | split; [exact H4 |]].
    exists rigid_registration. cbn [linear_stage selected_metric].
    rewrite <- Hdr, <- Hrm. auto. }
  apply bind_Exception in H as [H | (? & _ & H)].
  { apply run_affine_throws in H as (-> & H4 & Hd & Hm).
    split; [reflexivity | split; [exact H4 |]].
    exists affine_registration. cbn [linear_stage selected_metric].
    rewrite <- Hda, <- Ham. auto. }
  exfalso. revert H. apply returns_not_Exception, outputs_return.
Qed.

End Completion.

Section Reorientation.

Variables LforN NforL : Z -> Z.
Variable cl : CommandLine.

Hypothesis off : reorientation_off cl.

Lemma load_images_reorientation_off :
  log_all (fun e => negb (is_reorientation e)) (load_images LforN NforL cl)
  /\ forall dre, snd (load_images LforN NforL cl) = Return dre -> dre = false.
Proof.
  unfold load_images.
  destruct (negb (ndim (im1_header cl) =? ndim (im2_header cl))%nat);
    [split; [reflexivity | discriminate] |].
  destruct (4 <? ndim (im2_header cl))%nat;
    [split; [reflexivity | discriminate] |].
  destruct (ndim (im2_header cl) =? 4)%nat eqn:E4;
    [| split; [reflexivity | simpl; intros dre [= <-]; reflexivity]].
  destruct (negb (size (im1_header cl) 3 =? size (im2_header cl) 3)%Z);
    [split; [reflexivity | discriminate] |].
  assert (Hc : whole_SH_order (size (im2_header cl) 3) && negb (noreorientation cl)
               && (1 <? size (im2_header cl) 3)%Z = false).
  { destruct off as [H | [H | H]].
    - apply Nat.eqb_eq in E4. contradiction.
    - rewrite H. cbn [negb]. rewrite andb_false_r. reflexivity.
    - apply Z.ltb_ge in H. rewrite H. apply andb_false_r. }
  rewrite Hc. split; [reflexivity | simpl; intros dre [= <-]; reflexivity].
Qed.

Lemma register_without_reorientation (s : Settings) :
  do_reorientation s = false ->
  log_all (fun e => negb (is_reorientation e)) (register cl s).
Proof.
  destruct s as [dre dr da ds rm am ae]; simpl. intros ->.
  unfold register, run_rigid, run_affine, run_affine_difference, run_syn,
    write_transformed, write_transformed_midway, warp_to_midway.
  cbn [when do_rigid do_affine do_syn do_reorientation rigid_metric_
       affine_metric_ affine_estimator_].
  log_all_tac.
Qed.

(** X15.  When the images are not 4-D, or have at most one volume, or
    [-noreorientation] is given, nothing in the run reorients data: no
    directions are loaded or set, and no output is reoriented. *)
Theorem reorientation_switched_off :
  log_all (fun e => negb (is_reorientation e)) (run LforN NforL cl).
Proof.
  destruct load_images_reorientation_off as [Hl Hdre].
  unfold run. apply log_all_bind.
  - apply read_command_line_phases;
      [ exact Hl
      | unfold open_outputs; log_all_tac
      | unfold open_masks; log_all_tac
      | intros; unfold rigid_options; options_tac
      | intros; unfold affine_options; options_tac
      | intros; unfold syn_options; log_all_tac ].
  - intros s Hs. apply register_without_reorientation, Hdre.
    apply read_command_line_do_reorientation, Hs.
Qed.

End Reorientation.

Section Outputs.

Variables LforN NforL : Z -> Z.
Variable cl : CommandLine.

(** X16.  Without [-transformed], [-transformed_midway] and [-syn_warp],
    the run creates no image file and resamples nothing. *)
Theorem no_output_option_no_image :
  transformed cl = None ->
  transformed_midway cl = None ->
  syn_warp cl = None ->
  log_all (fun e => negb (writes_image e)) (run LforN NforL cl).
Proof.
  intros Ht Hm Hw. unfold run. apply log_all_bind.
  - apply read_command_line_phases;
      [ unfold load_images; log_all_tac
      | unfold open_outputs; rewrite Ht; reflexivity
      | unfold open_masks; log_all_tac
      | intros; unfold rigid_options; options_tac
      | intros; unfold affine_options; options_tac
      | intros; unfold syn_options; log_all_tac ].
  - intros s _.
    unfold register, run_rigid, run_affine, run_affine_difference, run_syn,
      write_transformed, write_transformed_midway, im1_midway_transformed_path.
    rewrite Ht, Hm, Hw. cbn [present when with_option String.eqb negb andb].
    log_all_tac.
Qed.





(** X18.  In a run that completes with [-transformed_midway] and an
    executed SyN stage, the linear part of both midway deformations is
    read from the [affine] transform object, whichever linear stages were
    executed; when no affine stage is executed and [-affine_init] is
    absent, no call of the run has set that object, whatever the rigid
    stage found. *)
Theorem midway_warp_reads_affine_object (p1 p2 : string) (log : list Event) :
  transformed_midway cl = Some (p1, p2) ->
  p1 <> ""%string -> p2 <> ""%string ->
  executed cl SyN = true ->
  run LforN NforL cl = (log, Return tt) ->
  In (compose_linear_displacement affine_transform get_transform_half) log
  /\ In (compose_linear_displacement affine_transform get_transform_half_inverse) log
  /\ (executed cl Affine = false -> affine_init cl = None ->
      forallb (fun e => negb (sets_affine_transform e)) log = true).
Proof.
  intros Hm Hp1 Hp2 Hsyn Hrun.
  assert (Hall : executed cl Affine = false -> affine_init cl = None ->
                 log_all (fun e => negb (sets_affine_transform e)) (run LforN NforL cl)).
  { intros Haff Hinit. unfold run. apply log_all_bind.
    - apply read_command_line_phases;
        [ unfold load_images; log_all_tac
        | unfold open_outputs; log_all_tac
        | unfold open_masks; log_all_tac
        | intros; unfold rigid_options; options_tac
        | intros; unfold affine_options; rewrite Hinit; options_tac
        | intros; unfold syn_options; log_all_tac ].
    - intros s Hs.
      pose proof (read_command_line_returned LforN NforL cl s Hs)
        as (_ & Hda & _).
      destruct s as [dre dr da ds rm am ae]; cbn [do_affine] in Hda.
      rewrite Haff in Hda. subst da.
      unfold register, run_rigid, run_affine, run_syn,
        write_transformed, write_transformed_midway, warp_to_midway.
      cbn [when do_rigid do_affine do_syn do_reorientation rigid_metric_
           affine_metric_ affine_estimator_].
      log_all_tac. }
  split; [| split;
            [| intros Haff Hinit; specialize (Hall Haff Hinit);
               rewrite Hrun in Hall; exact Hall]].
  all: clear Hall; unfold run in Hrun;
    apply bind_Return in Hrun as (s & l0 & l1 & Hread & Hreg & ->);
    assert (Hs : snd (read_command_line LforN NforL cl) = Return s)
      by (rewrite Hread; reflexivity);
    pose proof (read_command_line_returned LforN NforL cl s Hs)
      as (_ & _ & Hds & _);
    rewrite Hsyn in Hds;
    unfold register in Hreg;
    apply bind_Return in Hreg as (? & la & k1 & _ & Hreg & ->);
    apply bind_Return in Hreg as (? & lb & k2 & _ & Hreg & ->);
    apply bind_Return in Hreg as (? & lc & k3 & _ & Hreg & ->);
    apply bind_Return in Hreg as (? & ld & le & _ & Hreg & ->);
    rewrite !in_app_iff; do 5 right;
    change le with (fst (le, @Return unit tt)); rewrite <- Hreg;
    unfold write_transformed_midway, warp_to_midway,
      im1_midway_transformed_path, im2_midway_transformed_path;
    rewrite Hm, Hds;
    apply String.eqb_neq in Hp1; apply String.eqb_neq in Hp2;
    rewrite Hp1, Hp2; cbn [negb andb when];
    destruct (image_ndim cl =? 3)%nat, (do_reorientation s); simpl; auto 10.
Qed.

End Outputs.

Section ResumedOutputs.

Variables LforN NforL : Z -> Z.
Variable cl : CommandLine.
Variable w : WarpImage.

Hypothesis resumed : syn_init cl = Some w.

Lemma register_resumed (P : Event -> bool) (s : Settings) :
  snd (read_command_line LforN NforL cl) = Return s ->
  (forall dre ds, log_all P (run_syn cl false false ds dre ;;
                             write_transformed cl false ds dre ;;
                             write_transformed_midway cl false ds dre)) ->
  log_all P (register cl s).
Proof.
  intros Hs HP.
  pose proof (read_command_line_returned LforN NforL cl s Hs)
    as (Hdr & Hda & _).
  unfold executed in Hdr, Hda. rewrite resumed in Hdr, Hda.
  simpl in Hdr, Hda. rewrite andb_false_r in Hdr, Hda.
  unfold register, run_rigid, run_affine. rewrite Hdr, Hda. cbn [when].
  rewrite !bind_ret_l. apply HP.
Qed.

(** X19.  With [-syn_init] no linear transform is ever written: [-rigid],
    [-affine], [-affine_1tomidway] and [-affine_2tomidway] are accepted
    when [-type] selects their stage, but the run saves no transform. *)
Theorem resumed_run_saves_no_transform :
  log_all (fun e => negb (is_save_transform e)) (run LforN NforL cl).
Proof.
  unfold run. apply log_all_bind.
  - apply read_command_line_phases;
      [ unfold load_images; log_all_tac
      | unfold open_outputs; log_all_tac
      | unfold open_masks; log_all_tac
      | intros; unfold rigid_options; options_tac
      | intros; unfold affine_options; options_tac
      | intros; unfold syn_options; log_all_tac ].
  - intros s Hs. apply register_resumed; [exact Hs |]. intros dre ds.
    unfold run_syn, write_transformed, write_transformed_midway, warp_to_midway.
    log_all_tac.
Qed.

(** X20.  With [-syn_init], a [-syn_scale] list of more than one factor is
    never handed to the SyN registration: a run that completes has
    logged the warning that the option is ignored. *)
Theorem resumed_run_ignores_syn_scale (factors : list Q) :
  syn_scale cl = Some factors ->
  (1 < List.length factors)%nat ->
  log_all (fun e => negb (is_syn_set_scale_factor e)) (run LforN NforL cl)
  /\ forall log, run LforN NforL cl = (log, Return tt) ->
                 In warn_syn_scale_ignored log.
Proof.
  intros Hf Hlen. apply Nat.ltb_lt in Hlen. split.
  - unfold run. apply log_all_bind.
    + apply read_command_line_phases;
        [ unfold load_images; log_all_tac
        | unfold open_outputs; log_all_tac
        | unfold open_masks; log_all_tac
        | intros; unfold rigid_options; options_tac
        | intros; unfold affine_options; options_tac
        | intros; unfold syn_options; rewrite resumed, Hf;
          cbn [present andb with_option]; rewrite Hlen; log_all_tac ].
    + intros s Hs. apply register_resumed; [exact Hs |]. intros dre ds.
      unfold run_syn, write_transformed, write_transformed_midway, warp_to_midway.
      log_all_tac.
  - intros log Hrun. unfold run in Hrun.
    apply bind_Return in Hrun as (s & l0 & l1 & Hread & _ & ->).
    apply in_or_app. left.
    assert (H : snd (read_command_line LforN NforL cl) = Return s)
      by (rewrite Hread; reflexivity).
    change l0 with (fst (l0, Return s)). rewrite <- Hread. clear Hread.
    unfold read_command_line in H |- *.
    apply bind_returned in H as (dre & _ & H & Hl). rewrite Hl. clear Hl.
    apply bind_returned in H as (? & _ & H & Hl). rewrite Hl. clear Hl.
    destruct (select_stages cl) as [[dr da] ds].
    apply bind_returned in H as (? & _ & H & Hl). rewrite Hl. clear Hl.
    apply bind_returned in H as ([i rm] & _ & H & Hl). rewrite Hl. clear Hl.
    apply bind_returned in H as ([[ia am] ae] & _ & H & Hl). rewrite Hl. clear Hl.
    apply bind_returned in H as ([dr' da'] & Hs & H & Hl). rewrite Hl. clear Hl H.
    rewrite !in_app_iff. do 5 right. left.
    unfold syn_options in Hs |- *. rewrite resumed, Hf in Hs |- *.
    cbn [present andb with_option] in Hs |- *. rewrite Hlen in Hs |- *.
    apply bind_returned in Hs as (? & _ & Hs & Hl). rewrite Hl. clear Hl.
    apply bind_returned in Hs as (? & _ & Hs & Hl). rewrite Hl. clear Hl.
    apply bind_returned in Hs as (? & Hs' & _ & Hl). rewrite Hl. clear Hl.
    rewrite !in_app_iff. right. right. left.
    unfold warn_syn_scale_ignored. find_call Hs'.
Qed.

End ResumedOutputs.

(** *** The theorems at concrete command lines *)

Lemma inconsistent_headers_rejected_witness :
  headers_disagree cl_3D_against_4D
  /\ exists msg, run LforN_even NforL_even cl_3D_against_4D = ([], Exception msg).
Proof.
  assert (H : headers_disagree cl_3D_against_4D) by (left; simpl; discriminate).
  split; [exact H |].
  apply (inconsistent_headers_rejected LforN_even NforL_even cl_3D_against_4D H).
Defined.

Lemma loaded_image_keeps_shape_witness :
  ndim (LoadImage.load_image header_SH45 15) = ndim header_SH45
  /\ size (LoadImage.load_image header_SH45 15) 3 = 15%Z
  /\ (size (LoadImage.load_image header_SH45 15) 3 <= size header_SH45 3)%Z.
Proof.
  apply (loaded_image_keeps_shape LforN_even NforL_even cl_SH45 "image1.mif" 15
           header_SH45).
  - vm_compute. auto.
  - lia.
  - left. reflexivity.
Defined.

Lemma SH_lmax_rejected_witness :
  fails (run LforN_even NforL_even cl_SH45_lmax_10)
  /\ log_all (fun e => negb (is_load_image e))
             (run LforN_even NforL_even cl_SH45_lmax_10).
Proof.
  apply (SH_lmax_rejected LforN_even NforL_even cl_SH45_lmax_10 10);
    [reflexivity | reflexivity |].
  right. vm_compute. reflexivity.
Defined.

Lemma loaded_volumes_witness :
  In (load_image "image1.mif" 15) (fst (run LforN_even NforL_even cl_SH45))
  /\ volumes_within cl_SH45 15
  /\ forall f' n', In (load_image f' n') (fst (run LforN_even NforL_even cl_SH45)) ->
                   n' = 15%Z.
Proof.
  assert (H : In (load_image "image1.mif" 15)
                 (fst (run LforN_even NforL_even cl_SH45)))
    by (vm_compute; auto).
  split; [exact H |].
  apply (loaded_volumes LforN_even NforL_even cl_SH45 "image1.mif" 15 H).
Defined.

Lemma clashing_initialisations_rejected_witness :
  fails (run LforN_even NforL_even cl_rigid_init_and_centre)
  /\ log_all is_preparation (run LforN_even NforL_even cl_rigid_init_and_centre).
Proof.
  apply (clashing_initialisations_rejected LforN_even NforL_even
           cl_rigid_init_and_centre).
  left. split; reflexivity.
Defined.

Lemma accepted_run_throws_only_ncc_4D_witness :
  ncc_4D_message = ncc_4D_message
  /\ ndim (im2_header cl_rigid_affine_ncc_4D) = 4%nat
  /\ exists r, executed cl_rigid_affine_ncc_4D (linear_stage r) = true
               /\ selected_metric cl_rigid_affine_ncc_4D r = Registration.NCC.
Proof.
  apply (accepted_run_throws_only_ncc_4D LforN_even NforL_even cl_rigid_affine_ncc_4D
           (mkSettings false true true false Registration.Diff Registration.NCC
                       Registration.None) ncc_4D_message);
    reflexivity.
Defined.

Lemma reorientation_switched_off_witness :
  whole_SH_order (size (im2_header cl_SH15_noreorientation) 3) = true
  /\ log_all (fun e => negb (is_reorientation e))
             (run LforN_even NforL_even cl_SH15_noreorientation).
Proof.
  split; [reflexivity |].
  apply (reorientation_switched_off LforN_even NforL_even cl_SH15_noreorientation).
  right. left. reflexivity.
Defined.

Lemma no_output_option_no_image_witness :
  snd (run LforN_even NforL_even cl_rigid_with_affine_metric) = Return tt
  /\ log_all (fun e => negb (writes_image e))
             (run LforN_even NforL_even cl_rigid_with_affine_metric).
Proof.
  split; [reflexivity |].
  apply (no_output_option_no_image LforN_even NforL_even cl_rigid_with_affine_metric);
    reflexivity.
Defined.


Lemma midway_warp_reads_affine_object_witness :
  In (run_masked rigid_registration Registration.MeanSquared rigid_transform)
     (fst (run LforN_even NforL_even cl_rigid_syn_midway))
  /\ In (compose_linear_displacement affine_transform get_transform_half)
        (fst (run LforN_even NforL_even cl_rigid_syn_midway))
  /\ In (compose_linear_displacement affine_transform get_transform_half_inverse)
        (fst (run LforN_even NforL_even cl_rigid_syn_midway))
  /\ (executed cl_rigid_syn_midway Affine = false ->
      affine_init cl_rigid_syn_midway = None ->
      forallb (fun e => negb (sets_affine_transform e))
              (fst (run LforN_even NforL_even cl_rigid_syn_midway)) = true).
Proof.
  split; [vm_compute; auto 10 |].
  apply (midway_warp_reads_affine_object LforN_even NforL_even cl_rigid_syn_midway
           "mid1.mif" "mid2.mif");
    first [reflexivity | discriminate].
Defined.

Lemma resumed_run_saves_no_transform_witness :
  rigid cl_resumed_with_outputs = Some "rigid.txt"%string
  /\ snd (run LforN_even NforL_even cl_resumed_with_outputs) = Return tt
  /\ log_all (fun e => negb (is_save_transform e))
             (run LforN_even NforL_even cl_resumed_with_outputs).
Proof.
  split; [reflexivity |]. split; [reflexivity |].
  apply (resumed_run_saves_no_transform LforN_even NforL_even cl_resumed_with_outputs
           (mkWarpImage "warps.mif" 5)).
  reflexivity.
Defined.

Lemma resumed_run_ignores_syn_scale_witness :
  log_all (fun e => negb (is_syn_set_scale_factor e))
          (run LforN_even NforL_even cl_resumed_with_outputs)
  /\ forall log, run LforN_even NforL_even cl_resumed_with_outputs = (log, Return tt) ->
                 In warn_syn_scale_ignored log.
Proof.
  apply (resumed_run_ignores_syn_scale LforN_even NforL_even cl_resumed_with_outputs
           (mkWarpImage "warps.mif" 5) eq_refl [1 # 2; 1]);
    [reflexivity | simpl; lia].
Defined.

End RunLogFacts.

(* ================================================================== *)
(** * Properties of [testing_diff_tsf] *)
(* ================================================================== *)

Module TestingDiffTsfFacts.

Import TestingDiffTsf.

Lemma first_mismatch_None (tol : Q) (t1 t2 : list Q) :
  List.length t1 = List.length t2 ->
  (first_mismatch tol t1 t2 = None <-> tracks_agree tol t1 t2).
Proof.
  revert t2. induction t1 as [| a t1 IH]; intros [| b t2] Hlen; try discriminate.
  - split; [constructor | reflexivity].
  - injection Hlen as Hlen. cbn [first_mismatch].
    destruct (Qle_bool (Qabs (a - b)) tol) eqn:E; cbn [negb].
    + rewrite (IH t2 Hlen). apply Qle_bool_iff in E.
      split; [intros H; constructor; assumption | intros H; inversion H; assumption].
    + split; [discriminate |]. intros H. inversion H; subst.
      unfold close in *. apply Qle_bool_iff in H3. congruence.
Qed.

Lemma tracks_agree_length (tol : Q) (t1 t2 : list Q) :
  tracks_agree tol t1 t2 -> List.length t1 = List.length t2.
Proof. apply Forall2_length. Qed.

Lemma tracks_agree_refl (tol : Q) (t : list Q) : 0 <= tol -> tracks_agree tol t t.
Proof.
  intros Htol. induction t as [| a t IH]; constructor; [| exact IH].
  unfold close. setoid_replace (a - a) with 0 by ring. exact Htol.
Qed.

Lemma tracks_agree_sym (tol : Q) (t1 t2 : list Q) :
  tracks_agree tol t1 t2 -> tracks_agree tol t2 t1.
Proof.
  induction 1; constructor; [| assumption].
  unfold close in *. rewrite Qabs_Qminus. assumption.
Qed.

(** One turn of the [while] loop on two non-empty readers. *)
Lemma run_cons (a0 a1 : string) (tol : Q) (t1 t2 : list Q) (r1 r2 : list (list Q)) :
  run a0 a1 tol (t1 :: r1) (t2 :: r2) = checked_OK
  <-> tracks_agree tol t1 t2 /\ run a0 a1 tol r1 r2 = checked_OK.
Proof.
  cbn [run]. destruct (List.length t1 =? List.length t2)%nat eqn:E; cbn [negb].
  - apply Nat.eqb_eq in E.
    destruct (first_mismatch tol t1 t2) as [[a b] |] eqn:F.
    + split; [discriminate |]. intros [H _].
      apply (first_mismatch_None tol t1 t2 E) in H. congruence.
    + apply (first_mismatch_None tol t1 t2 E) in F. tauto.
  - apply Nat.eqb_neq in E. split; [discriminate |].
    intros [H _]. apply tracks_agree_length in H. contradiction.
Qed.

(** The verdict of the model, where differences are taken exactly. *)
Lemma run_checked_OK (a0 a1 : string) (tol : Q) (r1 r2 : list (list Q)) :
  run a0 a1 tol r1 r2 = checked_OK
  <-> Forall2 (tracks_agree tol)
              (firstn (Nat.min (List.length r1) (List.length r2)) r1)
              (firstn (Nat.min (List.length r1) (List.length r2)) r2).
Proof.
  revert r2. induction r1 as [| t1 r1 IH]; intros [| t2 r2].
  - simpl. split; [constructor | reflexivity].
  - simpl. split; [constructor | reflexivity].
  - simpl. split; [constructor | reflexivity].
  - rewrite run_cons, IH. simpl.
    split; [intros [H1 H2]; constructor; assumption | intros H; inversion H; auto].
Qed.

(** X21.  If, over as many tracks as the shorter file holds, each pair of
    tracks has the same number of values and every pair of values differs
    by at most the tolerance, the files are reported as checked OK; and
    whenever they are reported as checked OK, each of those pairs of
    tracks has the same number of values. *)
Theorem diff_tsf_agreeing_files_pass
        (a0 a1 : string) (tol : Q) (r1 r2 : list (list Q)) :
  (Forall2 (tracks_agree tol)
           (firstn (Nat.min (List.length r1) (List.length r2)) r1)
           (firstn (Nat.min (List.length r1) (List.length r2)) r2) ->
   run a0 a1 tol r1 r2 = checked_OK)
  /\ (run a0 a1 tol r1 r2 = checked_OK ->
      Forall2 (fun t1 t2 : list Q => List.length t1 = List.length t2)
              (firstn (Nat.min (List.length r1) (List.length r2)) r1)
              (firstn (Nat.min (List.length r1) (List.length r2)) r2)).
Proof.
  split; [apply run_checked_OK |].
  intros H. apply run_checked_OK in H.
  induction H as [| t1 t2 l1 l2 Ht _ IH]; constructor; [| exact IH].
  apply (tracks_agree_length tol), Ht.
Qed.

Lemma diff_tsf_agreeing_files_pass_witness :
  run "a.tsf" "b.tsf" (1 # 2) [[1; 2]; [3]] [[1; 2 + (1 # 4)]; [3]; [7]] = checked_OK.
Proof.
  apply (proj1 (diff_tsf_agreeing_files_pass "a.tsf" "b.tsf" (1 # 2)
                  [[1; 2]; [3]] [[1; 2 + (1 # 4)]; [3]; [7]])).
  repeat constructor; unfold close; vm_compute; discriminate.
Defined.

(** X22.  With a tolerance that is not negative, a file passes against
    itself, and against any file that continues it with further tracks, in
    either order: tracks beyond the end of the shorter file are never
    looked at. *)
Theorem diff_tsf_ignores_trailing_tracks
        (a0 a1 : string) (tol : Q) (r more : list (list Q)) :
  0 <= tol ->
  run a0 a1 tol r r = checked_OK
  /\ run a0 a1 tol r (r ++ more) = checked_OK
  /\ run a0 a1 tol (r ++ more) r = checked_OK.
Proof.
  intros Htol. induction r as [| t r IH].
  - repeat split; simpl; destruct more; reflexivity.
  - destruct IH as (H1 & H2 & H3).
    repeat split; simpl app; apply run_cons; (split; [apply tracks_agree_refl, Htol |]);
      assumption.
Qed.

Lemma diff_tsf_ignores_trailing_tracks_witness :
  run "a.tsf" "b.tsf" (1 # 1000) [[1; 2]; [3]] [[1; 2]; [3]] = checked_OK
  /\ run "a.tsf" "b.tsf" (1 # 1000) [[1; 2]; [3]] ([[1; 2]; [3]] ++ [[7; 8; 9]])
     = checked_OK
  /\ run "a.tsf" "b.tsf" (1 # 1000) ([[1; 2]; [3]] ++ [[7; 8; 9]]) [[1; 2]; [3]]
     = checked_OK.
Proof.
  apply (diff_tsf_ignores_trailing_tracks "a.tsf" "b.tsf" (1 # 1000)
           [[1; 2]; [3]] [[7; 8; 9]]).
  unfold Qle; simpl; lia.
Defined.

(** X23.  The verdict does not depend on which file is given first. *)
Theorem diff_tsf_symmetric (a0 a1 : string) (tol : Q) (r1 r2 : list (list Q)) :
  run a0 a1 tol r1 r2 = checked_OK <-> run a1 a0 tol r2 r1 = checked_OK.
Proof.
  revert r2. induction r1 as [| t1 r1 IH]; intros [| t2 r2]; try (simpl; tauto).
  rewrite !run_cons, IH.
  split; intros [H1 H2]; (split; [apply tracks_agree_sym |]); assumption.
Qed.

(** X24.  A difference in the number of values of a pair of tracks is
    reported as such, whatever the values are, as soon as all earlier pairs
    of tracks agree. *)
Theorem diff_tsf_length_mismatch
        (a0 a1 : string) (tol : Q) (r1 r2 : list (list Q)) (t1 t2 : list Q)
        (rest1 rest2 : list (list Q)) :
  Forall2 (tracks_agree tol) r1 r2 ->
  List.length t1 <> List.length t2 ->
  run a0 a1 tol (r1 ++ t1 :: rest1) (r2 ++ t2 :: rest2) = thrown length_mismatch.
Proof.
  intros Hagree Hlen. induction Hagree as [| s1 s2 r1 r2 Hs Hr IH].
  - cbn [app run]. apply Nat.eqb_neq in Hlen. rewrite Hlen. reflexivity.
  - cbn [app run].
    rewrite (proj2 (Nat.eqb_eq _ _) (tracks_agree_length _ _ _ Hs)). cbn [negb].
    rewrite (proj2 (first_mismatch_None tol s1 s2 (tracks_agree_length _ _ _ Hs)) Hs).
    exact IH.
Qed.

Lemma diff_tsf_length_mismatch_witness :
  run "a.tsf" "b.tsf" (1 # 2) ([[1; 2]] ++ [3] :: []) ([[1; 2]] ++ [3; 4] :: [[5]])
  = thrown length_mismatch.
Proof.
  apply (diff_tsf_length_mismatch "a.tsf" "b.tsf" (1 # 2) [[1; 2]] [[1; 2]]
           [3] [3; 4] [] [[5]]).
  - repeat constructor; unfold close; vm_compute; discriminate.
  - simpl. lia.
Defined.

Lemma first_mismatch_Some (tol : Q) (t1 t2 : list Q) (a b : Q) :
  first_mismatch tol t1 t2 = Some (a, b) ->
  tol < Qabs (a - b)
  /\ exists j, nth_error t1 j = Some a /\ nth_error t2 j = Some b.
Proof.
  revert t2. induction t1 as [| x t1 IH]; intros [| y t2]; try discriminate.
  cbn [first_mismatch].
  destruct (Qle_bool (Qabs (x - y)) tol) eqn:E; cbn [negb]; intros H.
  - destruct (IH t2 H) as (Hgt & j & H1 & H2). split; [exact Hgt |].
    exists (S j). auto.
  - injection H as <- <-. split.
    + apply Qnot_le_lt. intros Hle. apply Qle_bool_iff in Hle. congruence.
    + exists O. auto.
Qed.

(** X25.  When a value mismatch is thrown, it names the two files and the
    tolerance of the call, and its two values stand at the same place of
    the same track in the two files and differ by more than the tolerance. *)
Theorem diff_tsf_value_mismatch_is_real
        (a0 a1 : string) (tol : Q) (r1 r2 : list (list Q))
        (f1 f2 : string) (t a b : Q) :
  run a0 a1 tol r1 r2 = thrown (value_mismatch f1 f2 t a b) ->
  f1 = a0 /\ f2 = a1 /\ t = tol
  /\ tol < Qabs (a - b)
  /\ exists i j t1 t2,
       nth_error r1 i = Some t1 /\ nth_error r2 i = Some t2
       /\ nth_error t1 j = Some a /\ nth_error t2 j = Some b.
Proof.
  revert r2. induction r1 as [| t1 r1 IH]; intros [| t2 r2]; try discriminate.
  cbn [run]. destruct (negb (List.length t1 =? List.length t2)%nat); [discriminate |].
  destruct (first_mismatch tol t1 t2) as [[x y] |] eqn:F; intros H.
  - injection H as <- <- <- <- <-.
    apply first_mismatch_Some in F as (Hgt & j & H1 & H2).
    repeat split; try assumption. exists O, j, t1, t2. auto.
  - destruct (IH r2 H) as (-> & -> & -> & Hgt & i & j & s1 & s2 & H1 & H2 & H3 & H4).
    repeat split; try assumption. exists (S i), j, s1, s2. auto.
Qed.

Lemma diff_tsf_value_mismatch_is_real_witness :
  "a.tsf"%string = "a.tsf"%string /\ "b.tsf"%string = "b.tsf"%string
  /\ (1 # 2) = (1 # 2)
  /\ (1 # 2) < Qabs (3 - 5)
  /\ exists i j t1 t2,
       nth_error [[1; 2]; [3]] i = Some t1 /\ nth_error [[1; 2]; [5]] i = Some t2
       /\ nth_error t1 j = Some 3 /\ nth_error t2 j = Some 5.
Proof.
  apply (diff_tsf_value_mismatch_is_real "a.tsf" "b.tsf" (1 # 2)
           [[1; 2]; [3]] [[1; 2]; [5]] "a.tsf" "b.tsf" (1 # 2) 3 5).
  reflexivity.
Defined.

End TestingDiffTsfFacts.
